(** * User secret management: routes, request validation and their contracts

    A shallow embedding of the user-secret router
    ([registerUserSecretManagementRouter]: GET /, POST /create,
    PUT /update/:id, DELETE /:secretId) and of the express middleware
    [validate] (backend/src/middleware/validateRequest.ts).

    Conventions.
    - A JavaScript value of type [T | undefined] is an [option T] whose [None]
      is [undefined]; a nullable column of the stored row is an [option T]
      whose [None] is [null].
    - A request body is a JSON object: a finite map from keys to JSON values.
    - [await]ed service calls are functions of the store that return a
      result or a thrown error together with the new store.
    - [new Date()] is the clock reading handed to the handler; [new Date(s)]
      is kept symbolic as [DateOf s]. *)

From Stdlib Require Import ZArith String List Bool Ascii Lia.
From stdpp Require Import base option list gmap strings sorting.

Local Open Scope string_scope.

(** ** Results of fallible code *)

Inductive Result (E A : Type) : Type :=
| Ok (a : A)
| Err (e : E).
Arguments Ok {E A} a.
Arguments Err {E A} e.

Definition is_ok {E A} (r : Result E A) : bool :=
  match r with Ok _ => true | Err _ => false end.

Definition rmap {E A B} (f : A -> B) (r : Result E A) : Result E B :=
  match r with Ok a => Ok (f a) | Err e => Err e end.

(** ** JSON bodies and the zod schemas of the routes *)

Inductive JsValue : Type :=
| JString (s : string)
| JNumber (n : Z)
| JBoolean (b : bool)
| JNull
| JArray
| JObject.

Abbreviation RawBody := (gmap string JsValue).

Inductive ZodIssue : Type :=
| invalid_type (path : string)
| invalid_enum_value (path : string)
| invalid_string (path : string)
| too_small (path : string)
| too_big (path : string).

Abbreviation ZodResult := (Result (list ZodIssue)).

(** [z.object] parses every key and reports the issues of all of them. *)
Definition zap {A B} (f : ZodResult (A -> B)) (x : ZodResult A) : ZodResult B :=
  match f, x with
  | Ok g, Ok a => Ok (g a)
  | Ok _, Err e => Err e
  | Err e, Ok _ => Err e
  | Err e1, Err e2 => Err (e1 ++ e2)%list
  end.

Notation "f <&> x" := (zap f x) (at level 61, left associativity).

(** [z.string()] *)
Definition z_string (path : string) (v : option JsValue) : ZodResult string :=
  match v with
  | Some (JString s) => Ok s
  | _ => Err [invalid_type path]
  end.

(** [.optional()] lets [undefined] through and nothing else ([null] is still
    handed to the inner schema). *)
Definition z_optional {A} (p : option JsValue -> ZodResult A)
    (v : option JsValue) : ZodResult (option A) :=
  match v with
  | None => Ok None
  | Some _ => rmap Some (p v)
  end.

Inductive CredentialType : Type := WEB_LOGIN | CREDIT_CARD | SECURE_NOTE.

Definition CredentialType_of_string (s : string) : option CredentialType :=
  if String.eqb s "WEB_LOGIN" then Some WEB_LOGIN
  else if String.eqb s "CREDIT_CARD" then Some CREDIT_CARD
  else if String.eqb s "SECURE_NOTE" then Some SECURE_NOTE
  else None.

Definition CredentialType_to_string (c : CredentialType) : string :=
  match c with
  | WEB_LOGIN => "WEB_LOGIN"
  | CREDIT_CARD => "CREDIT_CARD"
  | SECURE_NOTE => "SECURE_NOTE"
  end.

(** [z.enum(["WEB_LOGIN", "CREDIT_CARD", "SECURE_NOTE"])] *)
Definition z_enum_credentialType (path : string) (v : option JsValue)
    : ZodResult CredentialType :=
  match v with
  | Some (JString s) =>
      match CredentialType_of_string s with
      | Some c => Ok c
      | None => Err [invalid_enum_value path]
      end
  | _ => Err [invalid_type path]
  end.

(** The parsed body of POST /create. *)
Module CreateBody.
Record t : Type := mk {
  credentialType : CredentialType;
  username : option string;
  password : option string;
  cardNumber : option string;
  expiryDate : option string;
  cvv : option string;
  title : option string;
  content : option string;
  organizationId : string;
  userId : string
}.
End CreateBody.

(** The parsed body of PUT /update/:id. *)
Module UpdateBody.
Record t : Type := mk {
  credentialType : option CredentialType;
  username : option string;
  password : option string;
  cardNumber : option string;
  expiryDate : option string;
  cvv : option string;
  title : option string;
  content : option string;
  organizationId : string;
  userId : string
}.
End UpdateBody.

(** Body schema of POST /create. *)
Definition create_body_schema (b : RawBody) : ZodResult CreateBody.t :=
  Ok CreateBody.mk
    <&> z_enum_credentialType "credentialType" (b !! "credentialType")
    <&> z_optional (z_string "username") (b !! "username")
    <&> z_optional (z_string "password") (b !! "password")
    <&> z_optional (z_string "cardNumber") (b !! "cardNumber")
    <&> z_optional (z_string "expiryDate") (b !! "expiryDate")
    <&> z_optional (z_string "cvv") (b !! "cvv")
    <&> z_optional (z_string "title") (b !! "title")
    <&> z_optional (z_string "content") (b !! "content")
    <&> z_string "organizationId" (b !! "organizationId")
    <&> z_string "userId" (b !! "userId").

(** Body schema of PUT /update/:id. *)
Definition update_body_schema (b : RawBody) : ZodResult UpdateBody.t :=
  Ok UpdateBody.mk
    <&> z_optional (z_enum_credentialType "credentialType") (b !! "credentialType")
    <&> z_optional (z_string "username") (b !! "username")
    <&> z_optional (z_string "password") (b !! "password")
    <&> z_optional (z_string "cardNumber") (b !! "cardNumber")
    <&> z_optional (z_string "expiryDate") (b !! "expiryDate")
    <&> z_optional (z_string "cvv") (b !! "cvv")
    <&> z_optional (z_string "title") (b !! "title")
    <&> z_optional (z_string "content") (b !! "content")
    <&> z_string "organizationId" (b !! "organizationId")
    <&> z_string "userId" (b !! "userId").

(** [z.string().uuid()]: five runs of hexadecimal digits, 8-4-4-4-12,
    separated by hyphens. *)
Definition is_hex (c : ascii) : bool :=
  let n := nat_of_ascii c in
  ((48 <=? n) && (n <=? 57) || (65 <=? n) && (n <=? 70)
   || (97 <=? n) && (n <=? 102))%nat.

Fixpoint hex_run (n : nat) (s : string) : option string :=
  match n with
  | O => Some s
  | S n' =>
      match s with
      | String c s' => if is_hex c then hex_run n' s' else None
      | EmptyString => None
      end
  end.

Fixpoint uuid_groups (gs : list nat) (s : string) : bool :=
  match gs with
  | [] => false
  | [g] => match hex_run g s with Some EmptyString => true | _ => false end
  | g :: gs' =>
      match hex_run g s with
      | Some (String "-" s') => uuid_groups gs' s'
      | _ => false
      end
  end.

Definition is_uuid (s : string) : bool := uuid_groups [8; 4; 4; 4; 12]%nat s.

Definition z_string_uuid (path : string) (v : option JsValue) : ZodResult string :=
  match v with
  | Some (JString s) => if is_uuid s then Ok s else Err [invalid_string path]
  | _ => Err [invalid_type path]
  end.

(** Params schema of DELETE /:secretId. *)
Definition delete_params_schema (secretId : string) : ZodResult string :=
  z_string_uuid "secretId" (Some (JString secretId)).

(** [z.coerce.number().min(lo).max(hi).default(d)] on a query-string entry:
    [None] is an absent key, [Some None] a text that [Number] turns into
    [NaN], [Some (Some n)] a text that [Number] turns into the integer [n]. *)
Definition z_coerce_number (lo hi d : Z) (path : string)
    (v : option (option Z)) : ZodResult Z :=
  match v with
  | None => Ok d
  | Some None => Err [invalid_type path]
  | Some (Some n) =>
      if (n <? lo)%Z then Err [too_small path]
      else if (hi <? n)%Z then Err [too_big path]
      else Ok n
  end.

Module Query.
Record t : Type := mk { offset : Z; limit : Z }.
End Query.

(** Querystring schema of GET /. *)
Definition list_query_schema (offset limit : option (option Z)) : ZodResult Query.t :=
  Ok Query.mk
    <&> z_coerce_number 0 100 0 "offset" offset
    <&> z_coerce_number 1 100 25 "limit" limit.

(** ** The data the handlers build *)

(** [req.permission]: the actor context left by [verifyAuth]. *)
Module Permission.
Record t : Type := mk {
  type : string;
  id : string;
  authMethod : string;
  orgId : string
}.
End Permission.

(** [new Date(s)] of a request string, kept as the expression it is: the
    value records the string the date was made of. JavaScript may give the
    same date for two strings (every text it cannot parse gives the same
    invalid date), so statements only ever say that a date is the one made
    of a given string, never that two dates differ. *)
Inductive Date : Type := DateOf (s : string).

(** The [newSecret] object of POST /create. *)
Module NewSecret.
Record t : Type := mk {
  id : string;
  user_id : string;
  organization_id : string;
  type : CredentialType;
  username : option string;
  password : option string;
  card_number : option string;
  expiry_date : option Date;
  cvv : option string;
  title : option string;
  content : option string;
  createdAt : Z;
  updatedAt : Z
}.
End NewSecret.

(** The [data] object of PUT /update/:id; [None] is [undefined]. *)
Module UpdateData.
Record t : Type := mk {
  type : option CredentialType;
  username : option string;
  password : option string;
  card_number : option string;
  expiry_date : option Date;
  cvv : option string;
  title : option string;
  content : option string;
  updatedAt : Z
}.
End UpdateData.

(** Modelled from the spec: [UserSecretsSchema] of [@app/db/schemas], the
    persisted entity of the data model: the columns of [newSecret] and the
    soft-delete marker [deletedAt], null while the secret is active. *)
Module UserSecret.
Record t : Type := mk {
  id : string;
  user_id : string;
  organization_id : string;
  type : CredentialType;
  username : option string;
  password : option string;
  card_number : option string;
  expiry_date : option Date;
  cvv : option string;
  title : option string;
  content : option string;
  createdAt : Z;
  updatedAt : Z;
  deletedAt : option Z
}.
End UserSecret.

(** Arguments of [getAllUserSecrets]. *)
Module ListArgs.
Record t : Type := mk {
  actor : string;
  actorId : string;
  actorAuthMethod : string;
  actorOrgId : string;
  offset : Z;
  limit : Z
}.
End ListArgs.

(** Arguments of [deleteUserSecretById]. *)
Module DeleteArgs.
Record t : Type := mk {
  actor : string;
  actorId : string;
  orgId : string;
  actorAuthMethod : string;
  actorOrgId : string;
  secretId : string
}.
End DeleteArgs.

(** ** Errors, replies and the service behind [server.services.userSecrets] *)

Inductive AppError : Type :=
| ValidationError (issues : list ZodIssue)
| NotFoundError
| UnauthorizedError
| StorageError.

Inductive Payload : Type :=
| ListPayload (secrets : list UserSecret.t) (totalCount : Z)
| CreatePayload (message : string) (secretId : option Z)
| UpdatePayload (message : string) (updatedSecretId : option string)
| DeletePayload (message : string) (deletedSecret : option UserSecret.t).

(** What a route does with a request: it sends a reply, or an error is
    thrown and left to the server's error handler. *)
Inductive Outcome : Type :=
| Reply (status : Z) (payload : Payload)
| Thrown (e : AppError).

(** Modelled from the spec: the server's error handler, which is not part
    of the router: validation errors are 400, not-found 404, a missing actor
    context 401; a storage failure is fatal for the request. *)
Definition status_of_error (e : AppError) : Z :=
  match e with
  | ValidationError _ => 400
  | NotFoundError => 404
  | UnauthorizedError => 401
  | StorageError => 500
  end.

Definition http_status (o : Outcome) : Z :=
  match o with
  | Reply status _ => status
  | Thrown e => status_of_error e
  end.

(** The four operations the router calls, over a store of type [S]. The
    service reads the clock itself where it stamps a time. *)
Record UserSecretsService (S : Type) : Type := {
  getAllUserSecrets : ListArgs.t -> S -> Result AppError (list UserSecret.t * Z) * S;
  createUserSecret : NewSecret.t -> S -> Result AppError unit * S;
  updateUserSecret : string -> UpdateData.t -> S -> Result AppError unit * S;
  deleteUserSecretById : Z -> DeleteArgs.t -> S -> Result AppError (option UserSecret.t) * S
}.
Arguments getAllUserSecrets {S} _ _ _.
Arguments createUserSecret {S} _ _ _.
Arguments updateUserSecret {S} _ _ _ _.
Arguments deleteUserSecretById {S} _ _ _ _.

(** ** The route handlers *)

(** [v || null] on an optional string: [undefined] and the empty string are
    falsy. *)
Definition or_null (v : option string) : option string :=
  match v with
  | Some (String _ _ as s) => Some s
  | _ => None
  end.

(** [v ? new Date(v) : other] on an optional string. *)
Definition date_or (v : option string) (other : option Date) : option Date :=
  match v with
  | Some (String _ _ as s) => Some (DateOf s)
  | _ => other
  end.

(** The object literal [newSecret] of POST /create: [uuid] is the value of
    [uuidv4()], [t_created] and [t_updated] the two readings of the clock. *)
Definition newSecret (uuid : string) (t_created t_updated : Z)
    (body : CreateBody.t) : NewSecret.t :=
  {| NewSecret.id := uuid;
     NewSecret.user_id := CreateBody.userId body;
     NewSecret.organization_id := CreateBody.organizationId body;
     NewSecret.type := CreateBody.credentialType body;
     NewSecret.username := or_null (CreateBody.username body);
     NewSecret.password := or_null (CreateBody.password body);
     NewSecret.card_number := or_null (CreateBody.cardNumber body);
     NewSecret.expiry_date := date_or (CreateBody.expiryDate body) None;
     NewSecret.cvv := or_null (CreateBody.cvv body);
     NewSecret.title := or_null (CreateBody.title body);
     NewSecret.content := or_null (CreateBody.content body);
     NewSecret.createdAt := t_created;
     NewSecret.updatedAt := t_updated |}.

(** The object literal [data] of PUT /update/:id. The schema keeps only its
    own keys, so [req.body.expiry_date] is [undefined]. *)
Definition updateData (now : Z) (body : UpdateBody.t) : UpdateData.t :=
  {| UpdateData.type := UpdateBody.credentialType body;
     UpdateData.username := UpdateBody.username body;
     UpdateData.password := UpdateBody.password body;
     UpdateData.card_number := UpdateBody.cardNumber body;
     UpdateData.expiry_date := date_or (UpdateBody.expiryDate body) None;
     UpdateData.cvv := UpdateBody.cvv body;
     UpdateData.title := UpdateBody.title body;
     UpdateData.content := UpdateBody.content body;
     UpdateData.updatedAt := now |}.

Section Router.
Context {S : Type} (svc : UserSecretsService S).

(** GET / *)
Definition list_handler (permission : Permission.t) (query : Query.t)
    (st : S) : Outcome * S :=
  let args :=
    {| ListArgs.actor := Permission.type permission;
       ListArgs.actorId := Permission.id permission;
       ListArgs.actorAuthMethod := Permission.authMethod permission;
       ListArgs.actorOrgId := Permission.orgId permission;
       ListArgs.offset := Query.offset query;
       ListArgs.limit := Query.limit query |} in
  match getAllUserSecrets svc args st with
  | (Ok (secrets, totalCount), st') => (Reply 200 (ListPayload secrets totalCount), st')
  | (Err e, st') => (Thrown e, st')
  end.

(** POST /create *)
Definition create_handler (uuid : string) (t_created t_updated : Z)
    (permission : Permission.t) (body : CreateBody.t) (st : S) : Outcome * S :=
  match createUserSecret svc (newSecret uuid t_created t_updated body) st with
  | (Ok _, st') =>
      (Reply 200 (CreatePayload "Credential created successfully" None), st')
  | (Err e, st') => (Thrown e, st')
  end.

(** PUT /update/:id *)
Definition update_handler (now : Z) (permission : Permission.t)
    (id : string) (body : UpdateBody.t) (st : S) : Outcome * S :=
  let secretId := id in
  match updateUserSecret svc secretId (updateData now body) st with
  | (Ok _, st') =>
      (Reply 200 (UpdatePayload "Credential updated successfully" (Some secretId)), st')
  | (Err e, st') => (Thrown e, st')
  end.

(** DELETE /:secretId *)
Definition delete_handler (now : Z) (permission : Permission.t)
    (secretId : string) (st : S) : Outcome * S :=
  let args :=
    {| DeleteArgs.actor := Permission.type permission;
       DeleteArgs.actorId := Permission.id permission;
       DeleteArgs.orgId := Permission.orgId permission;
       DeleteArgs.actorAuthMethod := Permission.authMethod permission;
       DeleteArgs.actorOrgId := Permission.orgId permission;
       DeleteArgs.secretId := secretId |} in
  match deleteUserSecretById svc now args st with
  | (Ok None, st') => (Reply 404 (DeletePayload "Secret not found" None), st')
  | (Ok (Some deletedSecret), st') =>
      (Reply 200 (DeletePayload "Secret soft deleted successfully" (Some deletedSecret)), st')
  | (Err e, st') => (Thrown e, st')
  end.

(** A route runs its schema first; the handler sees only a request the
    schema accepted, in its parsed form. The actor context is already on
    the request: [verifyAuth] has run. *)
Definition list_route (permission : Permission.t)
    (offset limit : option (option Z)) (st : S) : Outcome * S :=
  match list_query_schema offset limit with
  | Ok query => list_handler permission query st
  | Err issues => (Thrown (ValidationError issues), st)
  end.

Definition create_route (uuid : string) (t_created t_updated : Z)
    (permission : Permission.t) (body : RawBody) (st : S) : Outcome * S :=
  match create_body_schema body with
  | Ok parsed => create_handler uuid t_created t_updated permission parsed st
  | Err issues => (Thrown (ValidationError issues), st)
  end.

Definition update_route (now : Z) (permission : Permission.t)
    (id : string) (body : RawBody) (st : S) : Outcome * S :=
  match update_body_schema body with
  | Ok parsed => update_handler now permission id parsed st
  | Err issues => (Thrown (ValidationError issues), st)
  end.

Definition delete_route (now : Z) (permission : Permission.t)
    (secretId : string) (st : S) : Outcome * S :=
  match delete_params_schema secretId with
  | Ok parsed => delete_handler now permission parsed st
  | Err issues => (Thrown (ValidationError issues), st)
  end.
End Router.

(** ** The service and repository of the specification *)

Abbreviation Store := (gmap string UserSecret.t).

Definition active (r : UserSecret.t) : bool :=
  match UserSecret.deletedAt r with
  | None => true
  | Some _ => false
  end.

Definition in_scope (org : string) (r : UserSecret.t) : bool :=
  String.eqb (UserSecret.organization_id r) org.

(** Modelled from the spec: the payload columns of the entity and the
    credential type each belongs to: username and password to WEB_LOGIN;
    cardNumber, expiryDate and cvv to CREDIT_CARD; title and content to
    SECURE_NOTE. *)
Inductive Column : Type :=
| username_column
| password_column
| card_number_column
| expiry_date_column
| cvv_column
| title_column
| content_column.

Definition relevant (c : CredentialType) (col : Column) : bool :=
  match c, col with
  | WEB_LOGIN, (username_column | password_column) => true
  | CREDIT_CARD, (card_number_column | expiry_date_column | cvv_column) => true
  | SECURE_NOTE, (title_column | content_column) => true
  | _, _ => false
  end.

Definition CredentialType_eqb (a b : CredentialType) : bool :=
  match a, b with
  | WEB_LOGIN, WEB_LOGIN | CREDIT_CARD, CREDIT_CARD | SECURE_NOTE, SECURE_NOTE => true
  | _, _ => false
  end.

Definition only_if {A} (keep : bool) (v : option A) : option A :=
  if keep then v else None.

(** Modelled from the spec: the Credential Normalizer, on a row: only the
    columns relevant to the row's tag stay populated, all others are
    explicitly null. *)
Definition normalize (r : UserSecret.t) : UserSecret.t :=
  let c := UserSecret.type r in
  {| UserSecret.id := UserSecret.id r;
     UserSecret.user_id := UserSecret.user_id r;
     UserSecret.organization_id := UserSecret.organization_id r;
     UserSecret.type := c;
     UserSecret.username := only_if (relevant c username_column) (UserSecret.username r);
     UserSecret.password := only_if (relevant c password_column) (UserSecret.password r);
     UserSecret.card_number :=
       only_if (relevant c card_number_column) (UserSecret.card_number r);
     UserSecret.expiry_date :=
       only_if (relevant c expiry_date_column) (UserSecret.expiry_date r);
     UserSecret.cvv := only_if (relevant c cvv_column) (UserSecret.cvv r);
     UserSecret.title := only_if (relevant c title_column) (UserSecret.title r);
     UserSecret.content := only_if (relevant c content_column) (UserSecret.content r);
     UserSecret.createdAt := UserSecret.createdAt r;
     UserSecret.updatedAt := UserSecret.updatedAt r;
     UserSecret.deletedAt := UserSecret.deletedAt r |}.

(** Modelled from the spec: the row a new secret is persisted as; creation
    stamps [deletedAt = null]. *)
Definition row_of_newSecret (e : NewSecret.t) : UserSecret.t :=
  {| UserSecret.id := NewSecret.id e;
     UserSecret.user_id := NewSecret.user_id e;
     UserSecret.organization_id := NewSecret.organization_id e;
     UserSecret.type := NewSecret.type e;
     UserSecret.username := NewSecret.username e;
     UserSecret.password := NewSecret.password e;
     UserSecret.card_number := NewSecret.card_number e;
     UserSecret.expiry_date := NewSecret.expiry_date e;
     UserSecret.cvv := NewSecret.cvv e;
     UserSecret.title := NewSecret.title e;
     UserSecret.content := NewSecret.content e;
     UserSecret.createdAt := NewSecret.createdAt e;
     UserSecret.updatedAt := NewSecret.updatedAt e;
     UserSecret.deletedAt := None |}.

(** Modelled from the spec: repository [insert(entity)]: one new row keyed
    by the secret id, no other entity touched; ids are never reused, so an
    id already present is a storage failure. *)
Definition insert (r : UserSecret.t) (st : Store) : Result AppError unit * Store :=
  match st !! UserSecret.id r with
  | Some _ => (Err StorageError, st)
  | None => (Ok tt, <[UserSecret.id r := r]> st)
  end.

(** Modelled from the spec: repository [findById(id, organizationScope)]. *)
Definition findById (id org : string) (st : Store) : option UserSecret.t :=
  match st !! id with
  | Some r => if in_scope org r then Some r else None
  | None => None
  end.

(** Modelled from the spec: the fields a partial update writes: those that
    are not [undefined]; the others keep their stored value. *)
Definition written {A} (new old : option A) : option A :=
  match new with
  | Some v => Some v
  | None => old
  end.

Definition write_fields (d : UpdateData.t) (r : UserSecret.t) : UserSecret.t :=
  {| UserSecret.id := UserSecret.id r;
     UserSecret.user_id := UserSecret.user_id r;
     UserSecret.organization_id := UserSecret.organization_id r;
     UserSecret.type := default (UserSecret.type r) (UpdateData.type d);
     UserSecret.username := written (UpdateData.username d) (UserSecret.username r);
     UserSecret.password := written (UpdateData.password d) (UserSecret.password r);
     UserSecret.card_number := written (UpdateData.card_number d) (UserSecret.card_number r);
     UserSecret.expiry_date := written (UpdateData.expiry_date d) (UserSecret.expiry_date r);
     UserSecret.cvv := written (UpdateData.cvv d) (UserSecret.cvv r);
     UserSecret.title := written (UpdateData.title d) (UserSecret.title r);
     UserSecret.content := written (UpdateData.content d) (UserSecret.content r);
     UserSecret.createdAt := UserSecret.createdAt r;
     UserSecret.updatedAt := UpdateData.updatedAt d;
     UserSecret.deletedAt := UserSecret.deletedAt r |}.

(** Modelled from the spec: repository [updatePartial(id, fieldsToChange)]. *)
Definition updatePartial (id : string) (d : UpdateData.t) (st : Store) : Store :=
  alter (write_fields d) id st.

(** Modelled from the spec: a type change accompanies the update: the data
    carries a tag and it is not the stored one. *)
Definition type_changes (d : UpdateData.t) (r : UserSecret.t) : bool :=
  match UpdateData.type d with
  | Some c => negb (CredentialType_eqb c (UserSecret.type r))
  | None => false
  end.

(** Modelled from the spec: the row an update leaves: the given fields
    written, and on a type change the normalizer applied again, so that the
    fields of the previous type are cleared. *)
Definition updated_row (d : UpdateData.t) (r : UserSecret.t) : UserSecret.t :=
  let w := write_fields d r in
  if type_changes d r then normalize w else w.

(** The row with its soft-delete marker set. *)
Definition set_deletedAt (t : option Z) (r : UserSecret.t) : UserSecret.t :=
  {| UserSecret.id := UserSecret.id r;
     UserSecret.user_id := UserSecret.user_id r;
     UserSecret.organization_id := UserSecret.organization_id r;
     UserSecret.type := UserSecret.type r;
     UserSecret.username := UserSecret.username r;
     UserSecret.password := UserSecret.password r;
     UserSecret.card_number := UserSecret.card_number r;
     UserSecret.expiry_date := UserSecret.expiry_date r;
     UserSecret.cvv := UserSecret.cvv r;
     UserSecret.title := UserSecret.title r;
     UserSecret.content := UserSecret.content r;
     UserSecret.createdAt := UserSecret.createdAt r;
     UserSecret.updatedAt := UserSecret.updatedAt r;
     UserSecret.deletedAt := t |}.

(** Modelled from the spec: repository [markDeleted(id)], a compare-and-set
    on [deletedAt] still being null; it returns the row as it is after the
    mark. *)
Definition markDeleted (now : Z) (id : string) (st : Store)
    : option UserSecret.t * Store :=
  match st !! id with
  | Some r =>
      if active r then
        let r' := set_deletedAt (Some now) r in
        (Some r', <[id := r']> st)
      else (None, st)
  | None => (None, st)
  end.

Definition created_le (a b : UserSecret.t) : Prop :=
  (UserSecret.createdAt a <= UserSecret.createdAt b)%Z.

#[global] Instance created_le_dec : RelDecision created_le.
Proof. intros a b. unfold created_le. apply _. Defined.

(** Modelled from the spec: repository [listActive(organizationScope,
    offset, limit)]: the active secrets of the organization by creation
    time, the window [offset, offset + limit) of them, and the count of the
    whole matching set. *)
Definition listActive (org : string) (offset limit : Z) (st : Store)
    : list UserSecret.t * Z :=
  let matching :=
    List.filter (fun r => active r && in_scope org r) (map_to_list st).*2 in
  let ordered := merge_sort created_le matching in
  (take (Z.to_nat limit) (drop (Z.to_nat offset) ordered),
   Z.of_nat (length matching)).

(** Modelled from the spec: the Secret Management Service, the object
    behind [server.services.userSecrets], which is not part of the router.
    - [listSecrets]: the repository listing for the actor's organization.
    - [createSecret]: the id and the time stamps are the handler's
      [newSecret]; the service normalizes the payload by its tag and
      persists the row.
    - [updateSecret(id, partialPayload)]: fails with [NotFoundError] unless
      an active secret with that id exists; else a partial update, which
      writes the given fields and no other, followed by the normalizer when
      the type changes. The operation receives the id and the data, no
      actor.
    - [deleteSecret(actor, secretId)]: looks the secret up in the actor's
      organization; absent or already soft-deleted gives null, else the
      secret is marked deleted at the current time. *)
Definition spec_getAllUserSecrets (a : ListArgs.t) (st : Store)
    : Result AppError (list UserSecret.t * Z) * Store :=
  (Ok (listActive (ListArgs.actorOrgId a) (ListArgs.offset a) (ListArgs.limit a) st), st).

Definition spec_createUserSecret (e : NewSecret.t) (st : Store)
    : Result AppError unit * Store :=
  insert (normalize (row_of_newSecret e)) st.

Definition spec_updateUserSecret (id : string) (d : UpdateData.t) (st : Store)
    : Result AppError unit * Store :=
  match st !! id with
  | Some r =>
      if active r then
        let st1 := updatePartial id d st in
        (Ok tt, if type_changes d r then alter normalize id st1 else st1)
      else (Err NotFoundError, st)
  | None => (Err NotFoundError, st)
  end.

Definition spec_deleteUserSecretById (now : Z) (a : DeleteArgs.t) (st : Store)
    : Result AppError (option UserSecret.t) * Store :=
  match findById (DeleteArgs.secretId a) (DeleteArgs.actorOrgId a) st with
  | Some r =>
      if active r then
        let '(deleted, st') := markDeleted now (DeleteArgs.secretId a) st in
        (Ok deleted, st')
      else (Ok None, st)
  | None => (Ok None, st)
  end.

Definition specService : UserSecretsService Store :=
  {| getAllUserSecrets := spec_getAllUserSecrets;
     createUserSecret := spec_createUserSecret;
     updateUserSecret := spec_updateUserSecret;
     deleteUserSecretById := spec_deleteUserSecretById |}.

(** ** The express middleware [validate] *)

Module ValidateRequest.

Inductive RequestError : Type :=
| BadRequestError (message : string)
| UnauthorizedRequestError (message : string)
| ValidationError (errors : string).

(** How a call of the middleware ends: it returns, or [next] threw inside
    the [catch] block and the exception leaves the middleware. *)
Inductive Completion : Type := Returned | Escaped.

Section Validate.
Context {Req FieldError : Type}.
(** [validationResult(req)]: the errors express-validator collected, or
    [None] when the call throws. *)
Variable validationResult : Req -> option (list FieldError).
(** The text that the template literal makes of [errors.array]. *)
Variable array_text : string.
(** Whether a call of [next] with this argument returns ([true]) or
    throws ([false]); [None] is the call [next()]. *)
Variable next : option RequestError -> bool.

Definition invalid_parameters : RequestError :=
  ValidationError
    ("One or more of your paramters are invalid [error=" ++ array_text ++ "]").

Definition unauthenticated : RequestError :=
  UnauthorizedRequestError
    "Unauthenticated requests are not allowed. Try logging in".

(** The [catch] block, entered after the calls [calls] of [next]. *)
Definition on_catch (calls : list (option RequestError))
    : list (option RequestError) * Completion :=
  let arg := Some unauthenticated in
  ((calls ++ [arg])%list, if next arg then Returned else Escaped).

(** The calls of [next], in order, and how the middleware ends. *)
Definition validate (req : Req) : list (option RequestError) * Completion :=
  match validationResult req with
  | None => on_catch []
  | Some errors =>
      let arg :=
        match errors with
        | [] => None
        | _ :: _ => Some invalid_parameters
        end in
      if next arg then ([arg], Returned) else on_catch [arg]
  end.
End Validate.

End ValidateRequest.

(** * Vocabulary of the statements *)

(** ** Predicates on bodies and records *)

(** A key holds a string. *)
Definition holds_string (b : RawBody) (k : string) : Prop :=
  exists s, b !! k = Some (JString s).

(** A key holds one of the three credential-type tags. *)
Definition holds_tag (b : RawBody) (k : string) : Prop :=
  exists c, b !! k = Some (JString (CredentialType_to_string c)).

(** A key is not in the body. *)
Definition absent (b : RawBody) (k : string) : Prop := b !! k = None.

(** A field that is omitted or supplied as the empty string. *)
Definition blank (v : option string) : Prop := v = None \/ v = Some "".

(** An empty string taken for an omitted field. *)
Definition omit_empty (v : option string) : option string :=
  match v with
  | Some EmptyString => None
  | _ => v
  end.

(** The body with every empty string field left out. *)
Definition omit_empties (b : CreateBody.t) : CreateBody.t :=
  {| CreateBody.credentialType := CreateBody.credentialType b;
     CreateBody.username := omit_empty (CreateBody.username b);
     CreateBody.password := omit_empty (CreateBody.password b);
     CreateBody.cardNumber := omit_empty (CreateBody.cardNumber b);
     CreateBody.expiryDate := omit_empty (CreateBody.expiryDate b);
     CreateBody.cvv := omit_empty (CreateBody.cvv b);
     CreateBody.title := omit_empty (CreateBody.title b);
     CreateBody.content := omit_empty (CreateBody.content b);
     CreateBody.organizationId := CreateBody.organizationId b;
     CreateBody.userId := CreateBody.userId b |}.

(** The body under another credential-type tag. *)
Definition with_credentialType (c : CredentialType) (b : CreateBody.t) : CreateBody.t :=
  {| CreateBody.credentialType := c;
     CreateBody.username := CreateBody.username b;
     CreateBody.password := CreateBody.password b;
     CreateBody.cardNumber := CreateBody.cardNumber b;
     CreateBody.expiryDate := CreateBody.expiryDate b;
     CreateBody.cvv := CreateBody.cvv b;
     CreateBody.title := CreateBody.title b;
     CreateBody.content := CreateBody.content b;
     CreateBody.organizationId := CreateBody.organizationId b;
     CreateBody.userId := CreateBody.userId b |}.

(** The string fields of the body and the columns they go to, in step. *)
Definition string_fields (b : CreateBody.t) : list (option string) :=
  [CreateBody.username b; CreateBody.password b; CreateBody.cardNumber b;
   CreateBody.cvv b; CreateBody.title b; CreateBody.content b].

Definition string_columns (r : NewSecret.t) : list (option string) :=
  [NewSecret.username r; NewSecret.password r; NewSecret.card_number r;
   NewSecret.cvv r; NewSecret.title r; NewSecret.content r].

(** A column is null. *)
Definition isnull {A} (v : option A) : bool :=
  match v with
  | None => true
  | Some _ => false
  end.

(** The columns that the data model does not list under the record's tag
    (username, password: WEB_LOGIN; cardNumber, expiryDate, cvv:
    CREDIT_CARD; title, content: SECURE_NOTE) are all null. *)
Definition irrelevant_columns_null (r : NewSecret.t) : bool :=
  match NewSecret.type r with
  | WEB_LOGIN =>
      isnull (NewSecret.card_number r) && isnull (NewSecret.expiry_date r)
      && isnull (NewSecret.cvv r) && isnull (NewSecret.title r)
      && isnull (NewSecret.content r)
  | CREDIT_CARD =>
      isnull (NewSecret.username r) && isnull (NewSecret.password r)
      && isnull (NewSecret.title r) && isnull (NewSecret.content r)
  | SECURE_NOTE =>
      isnull (NewSecret.username r) && isnull (NewSecret.password r)
      && isnull (NewSecret.card_number r) && isnull (NewSecret.expiry_date r)
      && isnull (NewSecret.cvv r)
  end.

(** How a string field is stored: null when blank, as given when not. *)
Definition stored_as (v w : option string) : Prop :=
  (blank v -> w = None) /\ (forall s, s <> "" -> v = Some s -> w = Some s).

(** A column is populated exactly when its field came non-empty. *)
Definition populated_iff_supplied {A} (v : option string) (w : option A) : Prop :=
  is_Some w <-> exists s, v = Some s /\ s <> "".








(** ** Replies and repeated requests *)

(** The replies of the update and delete handlers. *)
Definition updated_reply (id : string) : Outcome :=
  Reply 200 (UpdatePayload "Credential updated successfully" (Some id)).

Definition not_found_reply : Outcome :=
  Reply 404 (DeletePayload "Secret not found" None).

Definition deleted_reply (d : UserSecret.t) : Outcome :=
  Reply 200 (DeletePayload "Secret soft deleted successfully" (Some d)).

(** Further delete requests for the same id, one after the other, each with
    its own clock reading and actor. *)
Fixpoint delete_again (calls : list (Z * Permission.t)) (secretId : string)
    (st : Store) : list Outcome * Store :=
  match calls with
  | [] => ([], st)
  | (now, permission) :: rest =>
      let '(out, st1) := delete_handler specService now permission secretId st in
      let '(outs, st2) := delete_again rest secretId st1 in
      (out :: outs, st2)
  end.

(** ** Sample actors, stores and bodies *)

(** Two actors of two organizations. *)
Definition actor_O1 : Permission.t :=
  {| Permission.type := "user"; Permission.id := "u1";
     Permission.authMethod := "email"; Permission.orgId := "O1" |}.

Definition actor_O2 : Permission.t :=
  {| Permission.type := "user"; Permission.id := "u2";
     Permission.authMethod := "email"; Permission.orgId := "O2" |}.

(** An id as [uuidv4()] makes them. *)
Definition id1 : string := "3f2a9c1e-7b44-4d1a-9e0c-5a6b7c8d9e0f".

(** A store that holds one active web login of organization O1. *)
Definition secret1 : UserSecret.t :=
  {| UserSecret.id := id1;
     UserSecret.user_id := "u1";
     UserSecret.organization_id := "O1";
     UserSecret.type := WEB_LOGIN;
     UserSecret.username := Some "a";
     UserSecret.password := Some "b";
     UserSecret.card_number := None;
     UserSecret.expiry_date := None;
     UserSecret.cvv := None;
     UserSecret.title := None;
     UserSecret.content := None;
     UserSecret.createdAt := 10;
     UserSecret.updatedAt := 10;
     UserSecret.deletedAt := None |}.

Definition store1 : Store := {[ id1 := secret1 ]}.

(** A create body under a tag outside the closed set. *)
Definition body_api_key : RawBody :=
  <["credentialType" := JString "API_KEY"]>
  (<["password" := JString "hunter2"]>
  (<["organizationId" := JString "O1"]>
  (<["userId" := JString "u1"]> ∅))).

(** A credit card that comes with a username, as sent and as parsed. *)
Definition body_card_with_username : RawBody :=
  <["credentialType" := JString "CREDIT_CARD"]>
  (<["username" := JString "bob"]>
  (<["cardNumber" := JString "4111111111111111"]>
  (<["organizationId" := JString "O1"]>
  (<["userId" := JString "u1"]> ∅)))).

Definition parsed_card_with_username : CreateBody.t :=
  CreateBody.mk CREDIT_CARD (Some "bob") None (Some "4111111111111111")
    None None None None "O1" "u1".

(** A web login. *)
Definition body_web_login : RawBody :=
  <["credentialType" := JString "WEB_LOGIN"]>
  (<["username" := JString "a"]>
  (<["password" := JString "b"]>
  (<["organizationId" := JString "O1"]>
  (<["userId" := JString "u1"]> ∅)))).

(** Update bodies: a new password alone; the same as the schema parses it
    when the two ids come with it; and an update sent by an actor of O2. *)
Definition body_password_only : RawBody := <["password" := JString "c"]> ∅.

Definition body_new_password : UpdateBody.t :=
  UpdateBody.mk None None (Some "c") None None None None None "O1" "u1".


Definition body_takeover : RawBody :=
  <["password" := JString "pwned"]>
  (<["organizationId" := JString "O2"]>
  (<["userId" := JString "u2"]> ∅)).

(** ** Bodies as JSON, schema keys and hexadecimal runs *)

(** The keys the two body schemas read. *)
Definition schema_keys : list string :=
  ["credentialType"; "username"; "password"; "cardNumber"; "expiryDate";
   "cvv"; "title"; "content"; "organizationId"; "userId"].

(** The body with the key [k] set to the string [v], or without the key
    when [v] is [undefined]. *)
Definition put (k : string) (v : option string) (b : RawBody) : RawBody :=
  partial_alter (fun _ => JString <$> v) k b.

(** The JSON object that carries the fields of a create body, and the one
    of an update body. *)
Definition create_body_json (p : CreateBody.t) : RawBody :=
  put "credentialType" (Some (CredentialType_to_string (CreateBody.credentialType p)))
  (put "username" (CreateBody.username p)
  (put "password" (CreateBody.password p)
  (put "cardNumber" (CreateBody.cardNumber p)
  (put "expiryDate" (CreateBody.expiryDate p)
  (put "cvv" (CreateBody.cvv p)
  (put "title" (CreateBody.title p)
  (put "content" (CreateBody.content p)
  (put "organizationId" (Some (CreateBody.organizationId p))
  (put "userId" (Some (CreateBody.userId p)) ∅))))))))).

Definition update_body_json (p : UpdateBody.t) : RawBody :=
  put "credentialType" (CredentialType_to_string <$> UpdateBody.credentialType p)
  (put "username" (UpdateBody.username p)
  (put "password" (UpdateBody.password p)
  (put "cardNumber" (UpdateBody.cardNumber p)
  (put "expiryDate" (UpdateBody.expiryDate p)
  (put "cvv" (UpdateBody.cvv p)
  (put "title" (UpdateBody.title p)
  (put "content" (UpdateBody.content p)
  (put "organizationId" (Some (UpdateBody.organizationId p))
  (put "userId" (Some (UpdateBody.userId p)) ∅))))))))).

(** Every character is a hexadecimal digit. *)
Fixpoint all_hex (s : string) : bool :=
  match s with
  | EmptyString => true
  | String c s' => is_hex c && all_hex s'
  end.

(** A run of [n] hexadecimal digits. *)
Definition hex_group (n : nat) (s : string) : Prop :=
  String.length s = n /\ all_hex s = true.

(** The string fields of the [data] object of an update, in the order of
    [update_string_fields]. *)
Definition update_string_fields (b : UpdateBody.t) : list (option string) :=
  [UpdateBody.username b; UpdateBody.password b; UpdateBody.cardNumber b;
   UpdateBody.cvv b; UpdateBody.title b; UpdateBody.content b].

Definition data_string_fields (d : UpdateData.t) : list (option string) :=
  [UpdateData.username d; UpdateData.password d; UpdateData.card_number d;
   UpdateData.cvv d; UpdateData.title d; UpdateData.content d].

(** A query-string entry that the bounds [lo] and [hi] refuse: a text that
    is not a number, or a number outside [lo, hi]. *)
Definition refused_entry (lo hi : Z) (v : option (option Z)) : Prop :=
  v = Some None \/ exists n, v = Some (Some n) /\ (n < lo \/ hi < n)%Z.

(** The value a query-string entry is read as: the default when absent. *)
Definition entry_value (d : Z) (v : option (option Z)) (n : Z) : Prop :=
  (v = None /\ n = d) \/ v = Some (Some n).

(** * Properties *)

(** ** Schemas *)

Lemma is_ok_zap {A B} (f : ZodResult (A -> B)) (x : ZodResult A) :
  is_ok (f <&> x) = is_ok f && is_ok x.
Proof. destruct f, x; reflexivity. Qed.

Lemma is_ok_false_Err {E A} (r : Result E A) :
  is_ok r = false -> exists e, r = Err e.
Proof. destruct r as [a|e]; [discriminate | eauto]. Qed.

Lemma CredentialType_of_to_string (c : CredentialType) :
  CredentialType_of_string (CredentialType_to_string c) = Some c.
Proof. destruct c; reflexivity. Qed.

Lemma CredentialType_of_string_Some (s : string) (c : CredentialType) :
  CredentialType_of_string s = Some c -> s = CredentialType_to_string c.
Proof.
  unfold CredentialType_of_string.
  destruct (String.eqb_spec s "WEB_LOGIN") as [->|_]; [by intros [= <-]|].
  destruct (String.eqb_spec s "CREDIT_CARD") as [->|_]; [by intros [= <-]|].
  destruct (String.eqb_spec s "SECURE_NOTE") as [->|_]; [by intros [= <-]|].
  discriminate.
Qed.

Lemma z_string_ok path (v : option JsValue) :
  is_ok (z_string path v) = true <-> exists s, v = Some (JString s).
Proof.
  split.
  - destruct v as [[]|]; simpl; try discriminate. eauto.
  - intros [s ->]. reflexivity.
Qed.

Lemma z_enum_ok path (v : option JsValue) :
  is_ok (z_enum_credentialType path v) = true
  <-> exists c, v = Some (JString (CredentialType_to_string c)).
Proof.
  split.
  - destruct v as [[s| | | | |]|]; simpl; try discriminate.
    destruct (CredentialType_of_string s) as [c|] eqn:Hc; [|discriminate].
    intros _. exists c. by rewrite (CredentialType_of_string_Some _ _ Hc).
  - intros [c ->]. simpl. by rewrite CredentialType_of_to_string.
Qed.

Lemma z_optional_ok {A} (p : option JsValue -> ZodResult A) (v : option JsValue) :
  is_ok (z_optional p v) = true <-> v = None \/ is_ok (p v) = true.
Proof.
  destruct v as [j|]; simpl.
  - destruct (p (Some j)); simpl; split; auto. intros [|]; [discriminate|done].
  - split; auto.
Qed.

Lemma create_body_schema_ok (b : RawBody) :
  is_ok (create_body_schema b) = true <->
    holds_tag b "credentialType"
    /\ (absent b "username" \/ holds_string b "username")
    /\ (absent b "password" \/ holds_string b "password")
    /\ (absent b "cardNumber" \/ holds_string b "cardNumber")
    /\ (absent b "expiryDate" \/ holds_string b "expiryDate")
    /\ (absent b "cvv" \/ holds_string b "cvv")
    /\ (absent b "title" \/ holds_string b "title")
    /\ (absent b "content" \/ holds_string b "content")
    /\ holds_string b "organizationId"
    /\ holds_string b "userId".
Proof.
  unfold create_body_schema, absent, holds_string, holds_tag.
  rewrite !is_ok_zap, !andb_true_iff, !z_optional_ok, !z_string_ok, z_enum_ok.
  simpl. intuition.
Qed.

(** ** POST /create: the credential type is a closed set *)

(** C6. A create request whose [credentialType] is not one of WEB_LOGIN,
    CREDIT_CARD, SECURE_NOTE (absent, not a string, or another string) is
    refused with a validation error, which the server answers with 400; the
    service is not called and the store is the one before the request,
    whatever the service is. *)
Theorem create_rejects_unknown_credentialType
    {S : Type} (svc : UserSecretsService S) (uuid : string) (t_created t_updated : Z)
    (permission : Permission.t) (body : RawBody) (st : S) :
  ~ holds_tag body "credentialType" ->
  exists issues,
    create_route svc uuid t_created t_updated permission body st
      = (Thrown (ValidationError issues), st)
    /\ http_status (Thrown (ValidationError issues)) = 400%Z.
Proof.
  intros Htag.
  destruct (is_ok (create_body_schema body)) eqn:Hok.
  - apply create_body_schema_ok in Hok. tauto.
  - apply is_ok_false_Err in Hok as [issues Hissues].
    exists issues. unfold create_route. rewrite Hissues. split; reflexivity.
Qed.

Lemma create_rejects_unknown_credentialType_witness :
  exists issues,
    create_route specService id1 10 10 actor_O1 body_api_key ∅
      = (Thrown (ValidationError issues), ∅)
    /\ http_status (Thrown (ValidationError issues)) = 400%Z.
Proof.
  apply (create_rejects_unknown_credentialType specService id1 10 10 actor_O1
           body_api_key ∅).
  intros [c Hc]. destruct c; vm_compute in Hc; discriminate.
Defined.

(** ** PUT /update/:id: the shape of the body *)

(** C8, as the schema has it. The body of an update is accepted exactly
    when [organizationId] and [userId] are strings and each of
    [credentialType], [username], [password], [cardNumber], [expiryDate],
    [cvv], [title], [content] is absent or well typed: the credential fields
    are optional, the two ids are required. *)
Theorem update_body_optional_fields_required_ids (body : RawBody) :
  is_ok (update_body_schema body) = true <->
    (absent body "credentialType" \/ holds_tag body "credentialType")
    /\ (absent body "username" \/ holds_string body "username")
    /\ (absent body "password" \/ holds_string body "password")
    /\ (absent body "cardNumber" \/ holds_string body "cardNumber")
    /\ (absent body "expiryDate" \/ holds_string body "expiryDate")
    /\ (absent body "cvv" \/ holds_string body "cvv")
    /\ (absent body "title" \/ holds_string body "title")
    /\ (absent body "content" \/ holds_string body "content")
    /\ holds_string body "organizationId"
    /\ holds_string body "userId".
Proof.
  unfold update_body_schema, absent, holds_string, holds_tag.
  rewrite !is_ok_zap, !andb_true_iff, !z_optional_ok, !z_string_ok, z_enum_ok.
  simpl. intuition.
Qed.

(** C8 as stated fails: a body that omits [organizationId] and [userId] is a
    shape error, and the route answers 400 without calling the service. *)
Lemma update_body_without_ids_rejected :
  update_body_schema body_password_only
    = Err [invalid_type "organizationId"; invalid_type "userId"]
  /\ http_status (fst (update_route specService 20 actor_O1 id1 body_password_only ∅))
     = 400%Z.
Proof. split; vm_compute; reflexivity. Qed.

(** ** POST /create: what [newSecret] holds *)

Lemma or_null_blank (v : option string) : blank v -> or_null v = None.
Proof. by intros [->| ->]. Qed.

Lemma or_null_nonempty (s : string) : s <> "" -> or_null (Some s) = Some s.
Proof. by destruct s. Qed.

Lemma or_null_Some (v : option string) (s : string) :
  or_null v = Some s <-> v = Some s /\ s <> "".
Proof.
  destruct v as [[|a w]|]; simpl; split; try done.
  - by intros [[= <-] ?].
  - by intros [= <-].
  - by intros [[= <-] _].
  - by intros [? _].
Qed.

Lemma date_or_blank (v : option string) (other : option Date) :
  blank v -> date_or v other = other.
Proof. by intros [->| ->]. Qed.

Lemma date_or_nonempty (s : string) (other : option Date) :
  s <> "" -> date_or (Some s) other = Some (DateOf s).
Proof. by destruct s. Qed.

Lemma or_null_omit_empty (v : option string) : or_null (omit_empty v) = or_null v.
Proof. by destruct v as [[|]|]. Qed.

Lemma date_or_omit_empty (v : option string) (other : option Date) :
  date_or (omit_empty v) other = date_or v other.
Proof. by destruct v as [[|]|]. Qed.

Lemma or_null_stored_as (v : option string) : stored_as v (or_null v).
Proof.
  split; [apply or_null_blank|].
  intros s Hs ->. by apply or_null_nonempty.
Qed.

(** C9. In create, a string field supplied as the empty string gives the
    same record as the field left out: the column is null. A non-empty
    string is stored as given (for [expiryDate], as the date made of it). *)
Theorem create_empty_string_stored_as_null
    (uuid : string) (t_created t_updated : Z) (body : CreateBody.t) :
  let r := newSecret uuid t_created t_updated body in
  newSecret uuid t_created t_updated (omit_empties body) = r
  /\ Forall2 stored_as (string_fields body) (string_columns r)
  /\ (blank (CreateBody.expiryDate body) -> NewSecret.expiry_date r = None)
  /\ (forall s, s <> "" -> CreateBody.expiryDate body = Some s ->
        NewSecret.expiry_date r = Some (DateOf s)).
Proof.
  split; [|split; [|split]].
  - unfold newSecret, omit_empties; simpl.
    by rewrite !or_null_omit_empty, date_or_omit_empty.
  - unfold string_fields, string_columns, newSecret; simpl.
    repeat (constructor; [apply or_null_stored_as|]). constructor.
  - simpl. apply date_or_blank.
  - simpl. intros s Hs ->. by apply date_or_nonempty.
Qed.

Example create_empty_username_example :
  NewSecret.username
    (newSecret id1 10 11
       (CreateBody.mk WEB_LOGIN (Some "") (Some "b") None None None None None "O1" "u1"))
  = None.
Proof. reflexivity. Qed.

Lemma or_null_populated (v : option string) :
  is_Some (or_null v) <-> exists s, v = Some s /\ s <> "".
Proof.
  split.
  - intros [s Hs]. exists s. by apply or_null_Some.
  - intros (s & -> & Hs). rewrite or_null_nonempty by done. eauto.
Qed.

Lemma date_or_populated (v : option string) :
  is_Some (date_or v None) <-> exists s, v = Some s /\ s <> "".
Proof.
  destruct v as [[|a w]|]; simpl; split.
  - by intros [? ?].
  - by intros (? & [= <-] & ?).
  - eauto.
  - eauto.
  - by intros [? ?].
  - by intros (? & ? & _).
Qed.

(** The record the handler builds carries the tag in its type column, and
    its payload columns do not depend on the tag: under any tag each column
    is populated exactly when its field was supplied non-empty, and is null
    otherwise. *)
Lemma create_columns_independent_of_tag
    (uuid : string) (t_created t_updated : Z) (body : CreateBody.t)
    (c : CredentialType) :
  let r := newSecret uuid t_created t_updated body in
  let r' := newSecret uuid t_created t_updated (with_credentialType c body) in
  NewSecret.type r = CreateBody.credentialType body
  /\ NewSecret.type r' = c
  /\ string_columns r' = string_columns r
  /\ NewSecret.expiry_date r' = NewSecret.expiry_date r
  /\ Forall2 populated_iff_supplied (string_fields body) (string_columns r)
  /\ populated_iff_supplied (CreateBody.expiryDate body) (NewSecret.expiry_date r).
Proof.
  cbv zeta. repeat split; try reflexivity.
  - unfold string_fields, string_columns, newSecret; simpl.
    repeat (constructor; [apply or_null_populated|]). constructor.
  - apply date_or_populated.
  - apply date_or_populated.
Qed.

(** The record the handler hands to the service still holds the username
    of a CREDIT_CARD create: the nulling by tag is the service's. *)
Lemma create_handler_record_keeps_username :
  create_body_schema body_card_with_username = Ok parsed_card_with_username
  /\ NewSecret.username (newSecret id1 10 11 parsed_card_with_username) = Some "bob"
  /\ irrelevant_columns_null (newSecret id1 10 11 parsed_card_with_username) = false.
Proof. repeat split; vm_compute; reflexivity. Qed.





(** The example of the claim: a CREDIT_CARD create that also supplies a
    username stores the card number and a null username. *)
Example create_credit_card_nulls_username :
  let st' := snd (create_route specService id1 10 11 actor_O1 body_card_with_username ∅) in
  UserSecret.username <$> st' !! id1 = Some None
  /\ UserSecret.card_number <$> st' !! id1 = Some (Some "4111111111111111")
  /\ UserSecret.type <$> st' !! id1 = Some CREDIT_CARD.
Proof. repeat split; vm_compute; reflexivity. Qed.

(** ** POST /create: the reply *)

(** C7 on the code: whatever the service and the request, a reply of the
    create route carries the message alone; its [secretId] is never set. *)
Theorem create_reply_has_no_secretId
    {S : Type} (svc : UserSecretsService S) (uuid : string) (t_created t_updated : Z)
    (permission : Permission.t) (body : RawBody) (st : S) :
  match fst (create_route svc uuid t_created t_updated permission body st) with
  | Reply status payload =>
      status = 200%Z
      /\ payload = CreatePayload "Credential created successfully" None
  | Thrown _ => True
  end.
Proof.
  unfold create_route, create_handler.
  destruct (create_body_schema body) as [parsed|issues]; simpl; [|done].
  destruct (createUserSecret svc _ st) as [[[]|e] st']; simpl; done.
Qed.

(** The failing input of C7: the secret is stored under the generated id,
    and the 200 reply does not tell it. *)
Lemma create_web_login_reply :
  fst (create_route specService id1 10 11 actor_O1 body_web_login ∅)
    = Reply 200 (CreatePayload "Credential created successfully" None)
  /\ UserSecret.id
       <$> snd (create_route specService id1 10 11 actor_O1 body_web_login ∅) !! id1
     = Some id1.
Proof. split; vm_compute; reflexivity. Qed.

(** ** The middleware [validate] *)


Example validate_no_errors :
  ValidateRequest.validate (fun _ : unit => Some (@nil string)) "array" (fun _ => true) tt
  = ([None], ValidateRequest.Returned).
Proof. reflexivity. Qed.

Example validate_result_throws :
  ValidateRequest.validate (fun _ : unit => @None (list string)) "array" (fun _ => true) tt
  = ([Some ValidateRequest.unauthenticated], ValidateRequest.Returned).
Proof. reflexivity. Qed.

(** ** PUT /update/:id on the specified service *)

(** The update handler on the specified service, case by case. *)
Lemma update_handler_spec (now : Z) (permission : Permission.t) (id : string)
    (body : UpdateBody.t) (st : Store) :
  update_handler specService now permission id body st =
    match st !! id with
    | Some r =>
        if active r
        then (updated_reply id, <[id := updated_row (updateData now body) r]> st)
        else (Thrown NotFoundError, st)
    | None => (Thrown NotFoundError, st)
    end.
Proof.
  unfold update_handler; simpl. unfold spec_updateUserSecret, updatePartial.
  destruct (st !! id) as [r|] eqn:Hr; [destruct (active r)|]; try reflexivity.
  f_equal. unfold updated_row. apply map_eq. intros j.
  destruct (decide (id = j)) as [<-|Hne].
  - rewrite lookup_insert_eq.
    destruct (type_changes (updateData now body) r).
    + by rewrite !lookup_alter_eq, Hr.
    + by rewrite lookup_alter_eq, Hr.
  - rewrite lookup_insert_ne by done.
    destruct (type_changes (updateData now body) r).
    + by rewrite !lookup_alter_ne.
    + by rewrite lookup_alter_ne.
Qed.







(** The example of the partial update: username "a", password "b", updated
    with the password "c" alone. *)
Example update_password_only :
  let st' := snd (update_handler specService 20 actor_O1 id1 body_new_password store1) in
  UserSecret.username <$> st' !! id1 = Some (Some "a")
  /\ UserSecret.password <$> st' !! id1 = Some (Some "c")
  /\ UserSecret.updatedAt <$> st' !! id1 = Some 20%Z
  /\ UserSecret.organization_id <$> st' !! id1 = Some "O1".
Proof. repeat split; vm_compute; reflexivity. Qed.

(** ** DELETE /:secretId on the specified service *)

(** The delete handler on the specified service, case by case. *)
Lemma delete_handler_spec (now : Z) (permission : Permission.t) (secretId : string)
    (st : Store) :
  delete_handler specService now permission secretId st =
    match findById secretId (Permission.orgId permission) st with
    | Some r =>
        if active r
        then (deleted_reply (set_deletedAt (Some now) r),
              <[secretId := set_deletedAt (Some now) r]> st)
        else (not_found_reply, st)
    | None => (not_found_reply, st)
    end.
Proof.
  unfold delete_handler; simpl. unfold spec_deleteUserSecretById; simpl.
  destruct (findById secretId _ st) as [r|] eqn:Hfind; [|reflexivity].
  destruct (active r) eqn:Hactive; [|reflexivity].
  unfold findById in Hfind. unfold markDeleted.
  destruct (st !! secretId) as [r0|]; [|discriminate].
  destruct (in_scope _ r0); [|discriminate].
  injection Hfind as ->. by rewrite Hactive.
Qed.

Lemma delete_inactive_not_found (now : Z) (permission : Permission.t)
    (secretId : string) (st : Store) (d : UserSecret.t) :
  st !! secretId = Some d -> active d = false ->
  delete_handler specService now permission secretId st = (not_found_reply, st).
Proof.
  intros Hd Hinactive. rewrite delete_handler_spec. unfold findById. rewrite Hd.
  destruct (in_scope _ d); [by rewrite Hinactive | done].
Qed.

Lemma delete_again_inactive (calls : list (Z * Permission.t)) (secretId : string)
    (st : Store) (d : UserSecret.t) :
  st !! secretId = Some d -> active d = false ->
  delete_again calls secretId st = (List.map (fun _ => not_found_reply) calls, st).
Proof.
  intros Hd Hinactive.
  induction calls as [|[now permission] rest IH]; simpl; [reflexivity|].
  rewrite (delete_inactive_not_found _ _ _ _ _ Hd Hinactive).
  by rewrite IH.
Qed.

(** C4. A delete of a secret that is active and in the actor's organization
    answers 200 with the row as it is stored after the call, whose
    [deletedAt] is the current time; every later delete of that id, by any
    actor at any time, answers 404 with no entity and changes nothing. A
    delete of an id that is absent from the actor's organization or already
    soft-deleted answers 404 with no entity. *)
Theorem delete_returns_snapshot_once (now : Z) (permission : Permission.t)
    (secretId : string) (st : Store) :
  let '(out, st') := delete_handler specService now permission secretId st in
  match findById secretId (Permission.orgId permission) st with
  | Some r =>
      if active r then
        exists d,
          out = deleted_reply d
          /\ UserSecret.deletedAt d = Some now
          /\ st' !! secretId = Some d
          /\ d = set_deletedAt (Some now) r
          /\ forall calls,
               delete_again calls secretId st'
               = (List.map (fun _ => not_found_reply) calls, st')
      else out = not_found_reply /\ st' = st
  | None => out = not_found_reply /\ st' = st
  end.
Proof.
  rewrite delete_handler_spec.
  destruct (findById secretId _ st) as [r|]; [|done].
  destruct (active r); [|done].
  exists (set_deletedAt (Some now) r).
  repeat split; [by rewrite lookup_insert_eq|].
  intros calls. apply (delete_again_inactive _ _ _ (set_deletedAt (Some now) r)).
  - by rewrite lookup_insert_eq.
  - reflexivity.
Qed.

(** Deleting the same id twice: one entity, then null. *)
Example delete_twice :
  let '(first, st1) := delete_handler specService 30 actor_O1 id1 store1 in
  let '(second, st2) := delete_handler specService 31 actor_O1 id1 st1 in
  first = deleted_reply (set_deletedAt (Some 30%Z) secret1)
  /\ second = not_found_reply
  /\ http_status second = 404%Z
  /\ st2 = st1.
Proof. vm_compute. repeat split; reflexivity. Qed.

(** ** Organization scope *)

(** DELETE hands the actor's organization to the service: a secret of
    another organization is answered as not found and stays as it is. *)
Lemma delete_other_organization_not_found (now : Z) (permission : Permission.t)
    (secretId : string) (st : Store) (r : UserSecret.t) :
  st !! secretId = Some r ->
  in_scope (Permission.orgId permission) r = false ->
  delete_handler specService now permission secretId st = (not_found_reply, st).
Proof.
  intros Hr Hscope. rewrite delete_handler_spec. unfold findById.
  by rewrite Hr, Hscope.
Qed.

(** GET / hands the actor's organization to the service: every secret of
    the reply is active and belongs to that organization. *)
Lemma list_only_own_organization (permission : Permission.t) (query : Query.t)
    (st : Store) :
  exists secrets totalCount,
    list_handler specService permission query st
      = (Reply 200 (ListPayload secrets totalCount), st)
    /\ forall r, r ∈ secrets ->
         active r = true /\ in_scope (Permission.orgId permission) r = true.
Proof.
  unfold list_handler; simpl. unfold spec_getAllUserSecrets, listActive; simpl.
  eexists _, _. split; [reflexivity|].
  intros r Hr.
  apply subseteq_take, subseteq_drop in Hr.
  rewrite merge_sort_Permutation in Hr.
  apply list_elem_of_In, filter_In in Hr as [_ Hr].
  by apply andb_true_iff in Hr.
Qed.

(** PUT /update/:id hands the service the id and the data only: whatever the
    service is, the outcome and the new store are the same for any two
    actor contexts. *)
Lemma update_route_actor_irrelevant {S : Type} (svc : UserSecretsService S)
    (now : Z) (permission permission' : Permission.t) (id : string)
    (body : RawBody) (st : S) :
  update_route svc now permission id body st
  = update_route svc now permission' id body st.
Proof.
  unfold update_route. destruct (update_body_schema body); reflexivity.
Qed.

(** C1 on the code. The update route gives every actor the same outcome,
    whatever the service. On a store that holds one secret of organization
    O1, an actor of O2 who names its id is answered 200 and overwrites its
    password, while the same actor's delete is answered 404 and the listing
    is empty. *)
Theorem update_ignores_actor_organization :
  (forall (S : Type) (svc : UserSecretsService S) now permission permission'
          id body (st : S),
      update_route svc now permission id body st
      = update_route svc now permission' id body st)
  /\ fst (update_route specService 20 actor_O2 id1 body_takeover store1)
     = updated_reply id1
  /\ UserSecret.password
       <$> snd (update_route specService 20 actor_O2 id1 body_takeover store1) !! id1
     = Some (Some "pwned")
  /\ UserSecret.organization_id <$> store1 !! id1 = Some "O1"
  /\ delete_route specService 20 actor_O2 id1 store1 = (not_found_reply, store1)
  /\ fst (list_route specService actor_O2 None None store1)
     = Reply 200 (ListPayload [] 0).
Proof.
  split; [intros; apply update_route_actor_irrelevant|].
  repeat split; vm_compute; reflexivity.
Qed.

(** ** PUT /update/:id: ids that are not found *)

(** On the specified service an id that is absent or soft-deleted is
    answered with NotFoundError, 404, and nothing is written. *)
Lemma update_unknown_id_not_found (now : Z) (permission : Permission.t)
    (id : string) (body : UpdateBody.t) (st : Store) :
  (st !! id = None \/ exists r, st !! id = Some r /\ active r = false) ->
  update_handler specService now permission id body st = (Thrown NotFoundError, st)
  /\ http_status (Thrown NotFoundError) = 404%Z.
Proof.
  intros H. rewrite update_handler_spec. split; [|reflexivity].
  destruct H as [->|(r & -> & ->)]; reflexivity.
Qed.

(** On the specified service an id that refers to an active secret outside
    the actor's organization is not answered as not found: the update
    reports success and writes the row. *)
Lemma update_outside_scope_writes (now : Z) (permission : Permission.t)
    (id : string) (body : UpdateBody.t) (st : Store) (r : UserSecret.t) :
  st !! id = Some r ->
  active r = true ->
  in_scope (Permission.orgId permission) r = false ->
  update_handler specService now permission id body st
    = (updated_reply id, <[id := updated_row (updateData now body) r]> st).
Proof.
  intros Hr Hactive _. by rewrite update_handler_spec, Hr, Hactive.
Qed.

(** C5 on the code. Whatever the service is, an update that is answered
    with success for one actor is answered with the same success, 200, and
    the same write for every other actor: an id outside the actor's
    organization is not turned into a not-found outcome. *)
Theorem update_success_for_any_actor {S : Type} (svc : UserSecretsService S)
    (now : Z) (owner other : Permission.t) (id : string) (body : RawBody)
    (st st' : S) :
  update_route svc now owner id body st = (updated_reply id, st') ->
  update_route svc now other id body st = (updated_reply id, st')
  /\ http_status (updated_reply id) = 200%Z.
Proof.
  intros Howner. split; [|reflexivity].
  by rewrite (update_route_actor_irrelevant svc now other owner).
Qed.

Lemma update_success_for_any_actor_witness :
  update_route specService 20 actor_O2 id1 body_takeover store1
    = (updated_reply id1,
       snd (update_route specService 20 actor_O1 id1 body_takeover store1))
  /\ http_status (updated_reply id1) = 200%Z.
Proof.
  apply (update_success_for_any_actor specService 20 actor_O1 actor_O2 id1
           body_takeover store1).
  vm_compute. reflexivity.
Defined.


(** * Further properties of the router *)

(** ** What the body schemas parse *)

Lemma zap_Ok {A B} (f : ZodResult (A -> B)) (x : ZodResult A) (r : B) :
  f <&> x = Ok r <-> exists g a, f = Ok g /\ x = Ok a /\ r = g a.
Proof.
  destruct f as [g|e], x as [a|e']; simpl; split.
  all: try (intros (? & ? & ? & ? & ?); discriminate).
  all: try discriminate.
  - intros [= <-]. eauto.
  - intros (g' & a' & [= <-] & [= <-] & ->). reflexivity.
Qed.

Lemma z_string_Ok path (v : option JsValue) (s : string) :
  z_string path v = Ok s <-> v = Some (JString s).
Proof.
  destruct v as [[]|]; simpl; split; try discriminate.
  - by intros [= ->].
  - by intros [= ->].
Qed.

Lemma z_optional_string_Ok path (v : option JsValue) (o : option string) :
  z_optional (z_string path) v = Ok o <-> v = JString <$> o.
Proof.
  destruct v as [[]|], o as [s'|]; simpl; split; try discriminate.
  - by intros [= ->].
  - by intros [= ->].
  - done.
  - done.
Qed.

Lemma z_enum_Ok path (v : option JsValue) (c : CredentialType) :
  z_enum_credentialType path v = Ok c
  <-> v = Some (JString (CredentialType_to_string c)).
Proof.
  split.
  - destruct v as [[s| | | | |]|]; simpl; try discriminate.
    destruct (CredentialType_of_string s) as [c'|] eqn:Hc; [|discriminate].
    intros [= <-]. by rewrite (CredentialType_of_string_Some _ _ Hc).
  - intros ->. simpl. by rewrite CredentialType_of_to_string.
Qed.

Lemma z_optional_enum_Ok path (v : option JsValue) (o : option CredentialType) :
  z_optional (z_enum_credentialType path) v = Ok o
  <-> v = JString <$> (CredentialType_to_string <$> o).
Proof.
  unfold z_optional. destruct v as [j|].
  - destruct (z_enum_credentialType path (Some j)) as [c'|e] eqn:Hj.
    + apply z_enum_Ok in Hj as [= ->].
      destruct o as [c|]; simpl; split; try discriminate.
      * by intros [= ->].
      * intros [= H]. do 2 f_equal. by destruct c, c'.
    + destruct o as [c|]; simpl; split; try discriminate.
      intros Hv. apply (z_enum_Ok path) in Hv. congruence.
  - destruct o; simpl; split; (done || discriminate).
Qed.

Ltac zap_invert H :=
  repeat
    (let g := fresh "g" in
     let a := fresh "a" in
     let Hx := fresh "Hfield" in
     apply zap_Ok in H as (g & a & H & Hx & ->)).

(** The keys of a body that hold the values of [p] make the create schema
    return [p]. *)
Lemma create_body_schema_of_keys (b : RawBody) (p : CreateBody.t) :
  b !! "credentialType" = Some (JString (CredentialType_to_string (CreateBody.credentialType p)))
  -> b !! "username" = JString <$> CreateBody.username p
  -> b !! "password" = JString <$> CreateBody.password p
  -> b !! "cardNumber" = JString <$> CreateBody.cardNumber p
  -> b !! "expiryDate" = JString <$> CreateBody.expiryDate p
  -> b !! "cvv" = JString <$> CreateBody.cvv p
  -> b !! "title" = JString <$> CreateBody.title p
  -> b !! "content" = JString <$> CreateBody.content p
  -> b !! "organizationId" = Some (JString (CreateBody.organizationId p))
  -> b !! "userId" = Some (JString (CreateBody.userId p))
  -> create_body_schema b = Ok p.
Proof.
  intros Hc Hu Hp Hn He Hv Ht Hco Ho Hi. unfold create_body_schema.
  destruct p as [c u pw cn ex cv t co org uid]; simpl in *.
  rewrite (proj2 (z_enum_Ok _ _ c) Hc).
  rewrite (proj2 (z_optional_string_Ok _ _ u) Hu).
  rewrite (proj2 (z_optional_string_Ok _ _ pw) Hp).
  rewrite (proj2 (z_optional_string_Ok _ _ cn) Hn).
  rewrite (proj2 (z_optional_string_Ok _ _ ex) He).
  rewrite (proj2 (z_optional_string_Ok _ _ cv) Hv).
  rewrite (proj2 (z_optional_string_Ok _ _ t) Ht).
  rewrite (proj2 (z_optional_string_Ok _ _ co) Hco).
  rewrite (proj2 (z_string_Ok _ _ org) Ho).
  rewrite (proj2 (z_string_Ok _ _ uid) Hi).
  reflexivity.
Qed.

(** X1. The create schema accepts a body exactly when its ten keys hold the
    values of the parsed body: the tag as its string, each optional field as
    a string or not at all, both ids as strings. *)
Theorem create_body_schema_parses_the_keys (b : RawBody) (p : CreateBody.t) :
  create_body_schema b = Ok p <->
    b !! "credentialType"
      = Some (JString (CredentialType_to_string (CreateBody.credentialType p)))
    /\ b !! "username" = JString <$> CreateBody.username p
    /\ b !! "password" = JString <$> CreateBody.password p
    /\ b !! "cardNumber" = JString <$> CreateBody.cardNumber p
    /\ b !! "expiryDate" = JString <$> CreateBody.expiryDate p
    /\ b !! "cvv" = JString <$> CreateBody.cvv p
    /\ b !! "title" = JString <$> CreateBody.title p
    /\ b !! "content" = JString <$> CreateBody.content p
    /\ b !! "organizationId" = Some (JString (CreateBody.organizationId p))
    /\ b !! "userId" = Some (JString (CreateBody.userId p)).
Proof.
  split.
  - unfold create_body_schema. intros H. zap_invert H. injection H as <-. simpl.
    repeat match goal with
           | Hf : z_enum_credentialType _ _ = Ok _ |- _ => apply z_enum_Ok in Hf
           | Hf : z_optional (z_string _) _ = Ok _ |- _ =>
               apply z_optional_string_Ok in Hf
           | Hf : z_string _ _ = Ok _ |- _ => apply z_string_Ok in Hf
           end.
    repeat split; assumption.
  - intros (Hc & Hu & Hp & Hn & He & Hv & Ht & Hco & Ho & Hi).
    by apply create_body_schema_of_keys.
Qed.

(** The keys of a body that hold the values of [p] make the update schema
    return [p]. *)
Lemma update_body_schema_of_keys (b : RawBody) (p : UpdateBody.t) :
  b !! "credentialType" = JString <$> (CredentialType_to_string <$> UpdateBody.credentialType p)
  -> b !! "username" = JString <$> UpdateBody.username p
  -> b !! "password" = JString <$> UpdateBody.password p
  -> b !! "cardNumber" = JString <$> UpdateBody.cardNumber p
  -> b !! "expiryDate" = JString <$> UpdateBody.expiryDate p
  -> b !! "cvv" = JString <$> UpdateBody.cvv p
  -> b !! "title" = JString <$> UpdateBody.title p
  -> b !! "content" = JString <$> UpdateBody.content p
  -> b !! "organizationId" = Some (JString (UpdateBody.organizationId p))
  -> b !! "userId" = Some (JString (UpdateBody.userId p))
  -> update_body_schema b = Ok p.
Proof.
  intros Hc Hu Hp Hn He Hv Ht Hco Ho Hi. unfold update_body_schema.
  destruct p as [c u pw cn ex cv t co org uid]; simpl in *.
  rewrite (proj2 (z_optional_enum_Ok _ _ c) Hc).
  rewrite (proj2 (z_optional_string_Ok _ _ u) Hu).
  rewrite (proj2 (z_optional_string_Ok _ _ pw) Hp).
  rewrite (proj2 (z_optional_string_Ok _ _ cn) Hn).
  rewrite (proj2 (z_optional_string_Ok _ _ ex) He).
  rewrite (proj2 (z_optional_string_Ok _ _ cv) Hv).
  rewrite (proj2 (z_optional_string_Ok _ _ t) Ht).
  rewrite (proj2 (z_optional_string_Ok _ _ co) Hco).
  rewrite (proj2 (z_string_Ok _ _ org) Ho).
  rewrite (proj2 (z_string_Ok _ _ uid) Hi).
  reflexivity.
Qed.

(** X2. The update schema accepts a body exactly when its ten keys hold the
    values of the parsed body: every credential field, the tag included, as
    a string or not at all, and both ids as strings. *)
Theorem update_body_schema_parses_the_keys (b : RawBody) (p : UpdateBody.t) :
  update_body_schema b = Ok p <->
    b !! "credentialType"
      = JString <$> (CredentialType_to_string <$> UpdateBody.credentialType p)
    /\ b !! "username" = JString <$> UpdateBody.username p
    /\ b !! "password" = JString <$> UpdateBody.password p
    /\ b !! "cardNumber" = JString <$> UpdateBody.cardNumber p
    /\ b !! "expiryDate" = JString <$> UpdateBody.expiryDate p
    /\ b !! "cvv" = JString <$> UpdateBody.cvv p
    /\ b !! "title" = JString <$> UpdateBody.title p
    /\ b !! "content" = JString <$> UpdateBody.content p
    /\ b !! "organizationId" = Some (JString (UpdateBody.organizationId p))
    /\ b !! "userId" = Some (JString (UpdateBody.userId p)).
Proof.
  split.
  - unfold update_body_schema. intros H. zap_invert H. injection H as <-. simpl.
    repeat match goal with
           | Hf : z_optional (z_enum_credentialType _) _ = Ok _ |- _ =>
               apply z_optional_enum_Ok in Hf
           | Hf : z_optional (z_string _) _ = Ok _ |- _ =>
               apply z_optional_string_Ok in Hf
           | Hf : z_string _ _ = Ok _ |- _ => apply z_string_Ok in Hf
           end.
    repeat split; assumption.
  - intros (Hc & Hu & Hp & Hn & He & Hv & Ht & Hco & Ho & Hi).
    by apply update_body_schema_of_keys.
Qed.

Lemma lookup_put_eq (k : string) (v : option string) (b : RawBody) :
  put k v b !! k = JString <$> v.
Proof. unfold put. by rewrite lookup_partial_alter_eq. Qed.

Lemma lookup_put_ne (k j : string) (v : option string) (b : RawBody) :
  k <> j -> put k v b !! j = b !! j.
Proof. intros H. unfold put. by rewrite lookup_partial_alter_ne. Qed.

Ltac lookup_json :=
  repeat (rewrite lookup_put_ne by discriminate);
  rewrite lookup_put_eq; reflexivity.

(** X3. A parsed create body, written out as JSON, is accepted by the create
    schema and parses back to itself. *)
Theorem create_body_schema_round_trip (p : CreateBody.t) :
  create_body_schema (create_body_json p) = Ok p.
Proof.
  apply create_body_schema_of_keys; unfold create_body_json; lookup_json.
Qed.

(** X4. A parsed update body, written out as JSON, is accepted by the update
    schema and parses back to itself. *)
Theorem update_body_schema_round_trip (p : UpdateBody.t) :
  update_body_schema (update_body_json p) = Ok p.
Proof.
  apply update_body_schema_of_keys; unfold update_body_json; lookup_json.
Qed.

(** ** Keys outside the schemas, and values that are not strings *)

Lemma create_body_schema_insert_unknown (k : string) (v : JsValue) (b : RawBody) :
  ~ In k schema_keys ->
  create_body_schema (<[k := v]> b) = create_body_schema b.
Proof.
  intros Hk. unfold create_body_schema.
  rewrite !lookup_insert_ne; [reflexivity|..].
  all: intros ->; apply Hk; simpl; tauto.
Qed.

Lemma update_body_schema_insert_unknown (k : string) (v : JsValue) (b : RawBody) :
  ~ In k schema_keys ->
  update_body_schema (<[k := v]> b) = update_body_schema b.
Proof.
  intros Hk. unfold update_body_schema.
  rewrite !lookup_insert_ne; [reflexivity|..].
  all: intros ->; apply Hk; simpl; tauto.
Qed.

(** X5. A key that is not one of the ten schema keys has no effect: with it
    or without it, a create and an update have the same outcome and leave
    the same store, whatever the service. *)
Theorem routes_ignore_unknown_keys {S : Type} (svc : UserSecretsService S)
    (uuid : string) (t_created t_updated now : Z) (permission : Permission.t)
    (id k : string) (v : JsValue) (body : RawBody) (st : S) :
  ~ In k schema_keys ->
  create_route svc uuid t_created t_updated permission (<[k := v]> body) st
    = create_route svc uuid t_created t_updated permission body st
  /\ update_route svc now permission id (<[k := v]> body) st
     = update_route svc now permission id body st.
Proof.
  intros Hk. unfold create_route, update_route.
  by rewrite create_body_schema_insert_unknown, update_body_schema_insert_unknown.
Qed.

Lemma routes_ignore_unknown_keys_witness :
  create_route specService id1 10 11 actor_O1
      (<["deletedAt" := JNumber 0]> body_web_login) ∅
    = create_route specService id1 10 11 actor_O1 body_web_login ∅
  /\ update_route specService 20 actor_O1 id1
       (<["deletedAt" := JNumber 0]> body_web_login) ∅
     = update_route specService 20 actor_O1 id1 body_web_login ∅.
Proof.
  apply (routes_ignore_unknown_keys specService id1 10 11 20 actor_O1 id1
           "deletedAt" (JNumber 0)).
  simpl. intros H. repeat (destruct H as [H|H]; [discriminate|]). exact H.
Defined.

Lemma optional_string_lookup (b : RawBody) (k : string) (v : JsValue) :
  b !! k = None \/ (exists s, b !! k = Some (JString s)) ->
  b !! k = Some v -> exists s, v = JString s.
Proof. intros [H|[s H]] Hk; rewrite H in Hk; [discriminate|]. injection Hk as <-. eauto. Qed.

Lemma optional_tag_lookup (b : RawBody) (k : string) (v : JsValue) :
  b !! k = None \/ (exists c, b !! k = Some (JString (CredentialType_to_string c))) ->
  b !! k = Some v -> exists s, v = JString s.
Proof. intros [H|[c H]] Hk; rewrite H in Hk; [discriminate|]. injection Hk as <-. eauto. Qed.

Ltac key_holds_string :=
  match goal with
  | Hk : ?b !! ?k = Some ?v |- _ =>
      first [ apply (optional_string_lookup b k v); [assumption | assumption]
            | apply (optional_string_lookup b k v); [right; assumption | assumption]
            | apply (optional_tag_lookup b k v); [assumption | assumption]
            | apply (optional_tag_lookup b k v); [right; assumption | assumption] ]
  end.

Lemma create_body_schema_ok_strings (b : RawBody) :
  is_ok (create_body_schema b) = true ->
  forall k v, In k schema_keys -> b !! k = Some v -> exists s, v = JString s.
Proof.
  intros H. apply create_body_schema_ok in H.
  unfold holds_tag, holds_string, absent in H.
  destruct H as (? & ? & ? & ? & ? & ? & ? & ? & ? & ?).
  intros k v Hin Hk. simpl in Hin.
  repeat (destruct Hin as [<-|Hin]; [key_holds_string|]). done.
Qed.

Lemma update_body_schema_ok_strings (b : RawBody) :
  is_ok (update_body_schema b) = true ->
  forall k v, In k schema_keys -> b !! k = Some v -> exists s, v = JString s.
Proof.
  unfold update_body_schema.
  rewrite !is_ok_zap, !andb_true_iff, !z_optional_ok, !z_string_ok, z_enum_ok.
  intros H. simpl in H.
  destruct H as [[[[[[[[[[_ ?] ?] ?] ?] ?] ?] ?] ?] ?] ?].
  intros k v Hin Hk. simpl in Hin.
  repeat (destruct Hin as [<-|Hin]; [key_holds_string|]). done.
Qed.

(** X6. A schema key that holds anything but a string (null, a number, a
    boolean, an array, an object) makes the body a shape error for create and
    for update alike: the route throws a validation error, the service is
    not called and the store is the one before, whatever the service. *)
Theorem routes_reject_non_string_values {S : Type} (svc : UserSecretsService S)
    (uuid : string) (t_created t_updated now : Z) (permission : Permission.t)
    (id k : string) (v : JsValue) (body : RawBody) (st : S) :
  In k schema_keys ->
  body !! k = Some v ->
  (forall s, v <> JString s) ->
  (exists issues,
     create_route svc uuid t_created t_updated permission body st
       = (Thrown (ValidationError issues), st))
  /\ (exists issues,
        update_route svc now permission id body st
          = (Thrown (ValidationError issues), st)).
Proof.
  intros Hin Hk Hv. unfold create_route, update_route. split.
  - destruct (is_ok (create_body_schema body)) eqn:Hok.
    + destruct (create_body_schema_ok_strings _ Hok k v Hin Hk) as [s ->].
      by destruct (Hv s).
    + apply is_ok_false_Err in Hok as [issues ->]. eauto.
  - destruct (is_ok (update_body_schema body)) eqn:Hok.
    + destruct (update_body_schema_ok_strings _ Hok k v Hin Hk) as [s ->].
      by destruct (Hv s).
    + apply is_ok_false_Err in Hok as [issues ->]. eauto.
Qed.

Lemma routes_reject_non_string_values_witness :
  (exists issues,
     create_route specService id1 10 11 actor_O1
         (<["username" := JNull]> body_web_login) ∅
       = (Thrown (ValidationError issues), ∅))
  /\ (exists issues,
        update_route specService 20 actor_O1 id1
            (<["username" := JNull]> body_web_login) ∅
          = (Thrown (ValidationError issues), ∅)).
Proof.
  apply (routes_reject_non_string_values specService id1 10 11 20 actor_O1 id1
           "username" JNull).
  - simpl. tauto.
  - reflexivity.
  - discriminate.
Defined.

(** ** GET /: the query string *)

Lemma z_coerce_number_Ok (lo hi d : Z) path (v : option (option Z)) (n : Z) :
  (lo <= d <= hi)%Z ->
  z_coerce_number lo hi d path v = Ok n ->
  entry_value d v n /\ (lo <= n <= hi)%Z.
Proof.
  intros Hd. unfold z_coerce_number, entry_value.
  destruct v as [[m|]|]; [|discriminate|].
  - destruct (Z.ltb_spec m lo); [discriminate|].
    destruct (Z.ltb_spec hi m); [discriminate|].
    intros [= <-]. split; [by right | lia].
  - intros [= <-]. split; [by left | lia].
Qed.

Lemma z_coerce_number_refused (lo hi d : Z) path (v : option (option Z)) :
  refused_entry lo hi v -> is_ok (z_coerce_number lo hi d path v) = false.
Proof.
  unfold z_coerce_number. intros [->|(n & -> & Hn)]; [reflexivity|].
  destruct (Z.ltb_spec n lo); [reflexivity|].
  destruct (Z.ltb_spec hi n); [reflexivity|lia].
Qed.

(** X7. A query the list schema accepts has its offset in [0, 100] and its
    limit in [1, 100]; an absent offset is read as 0, an absent limit as 25,
    and a given number is kept as it is. *)
Theorem list_query_schema_bounds (offset limit : option (option Z)) (q : Query.t) :
  list_query_schema offset limit = Ok q ->
  entry_value 0 offset (Query.offset q)
  /\ entry_value 25 limit (Query.limit q)
  /\ (0 <= Query.offset q <= 100)%Z
  /\ (1 <= Query.limit q <= 100)%Z.
Proof.
  unfold list_query_schema. intros H. zap_invert H. injection H as <-. simpl.
  repeat match goal with
         | Hf : z_coerce_number _ _ _ _ _ = Ok _ |- _ =>
             apply z_coerce_number_Ok in Hf as [? ?]; [|lia]
         end.
  tauto.
Qed.

Lemma list_query_schema_bounds_witness :
  entry_value 0 (Some (Some 5%Z)) 5
  /\ entry_value 25 None 25
  /\ (0 <= 5 <= 100)%Z
  /\ (1 <= 25 <= 100)%Z.
Proof.
  apply (list_query_schema_bounds (Some (Some 5%Z)) None (Query.mk 5 25)).
  reflexivity.
Defined.

(** X8. A listing whose offset or limit is not a number, or lies outside
    its bounds (a limit of 0 is one), is refused with a validation error:
    the service is not called and the store is the one before, whatever the
    service. *)
Theorem list_route_refuses_bad_query {S : Type} (svc : UserSecretsService S)
    (permission : Permission.t) (offset limit : option (option Z)) (st : S) :
  refused_entry 0 100 offset \/ refused_entry 1 100 limit ->
  exists issues,
    list_route svc permission offset limit st = (Thrown (ValidationError issues), st).
Proof.
  intros H. unfold list_route.
  destruct (is_ok (list_query_schema offset limit)) eqn:Hok.
  - unfold list_query_schema in Hok. rewrite !is_ok_zap in Hok.
    apply andb_true_iff in Hok as [Ho Hl]. apply andb_true_iff in Ho as [_ Ho].
    destruct H as [H|H].
    + apply (z_coerce_number_refused _ _ 0 "offset") in H. congruence.
    + apply (z_coerce_number_refused _ _ 25 "limit") in H. congruence.
  - apply is_ok_false_Err in Hok as [issues ->]. eauto.
Qed.

Lemma list_route_refuses_bad_query_witness :
  exists issues,
    list_route specService actor_O1 None (Some (Some 0%Z)) store1
      = (Thrown (ValidationError issues), store1).
Proof.
  apply (list_route_refuses_bad_query specService actor_O1 None (Some (Some 0%Z)) store1).
  right. right. exists 0%Z. split; [reflexivity | lia].
Defined.

(** ** DELETE /:secretId: the shape of the id *)

Lemma length_append (a b : string) :
  String.length (a ++ b) = (String.length a + String.length b)%nat.
Proof. induction a as [|c a IH]; simpl; [reflexivity | by rewrite IH]. Qed.

Lemma append_empty_r (a : string) : a ++ "" = a.
Proof.
  induction a as [|c a IH]; [reflexivity|].
  change (String c (a ++ "") = String c a). by rewrite IH.
Qed.

Lemma hex_run_Some (n : nat) (s t : string) :
  hex_run n s = Some t <-> exists p, s = p ++ t /\ hex_group n p.
Proof.
  unfold hex_group. revert s. induction n as [|n IH]; intros s; simpl.
  - split.
    + intros [= ->]. by exists "".
    + intros (p & -> & Hlen & _). by destruct p.
  - destruct s as [|c s].
    + split; [discriminate|]. intros (p & Hs & Hlen & _). by destruct p.
    + destruct (is_hex c) eqn:Hc.
      * rewrite IH. split.
        -- intros (p & -> & Hlen & Hhex). exists (String c p). simpl.
           rewrite Hc, Hlen. by rewrite Hhex.
        -- intros (p & Hs & Hlen & Hhex). destruct p as [|c' p]; [discriminate|].
           simpl in *. injection Hs as <- ->. injection Hlen as Hlen.
           apply andb_true_iff in Hhex as [_ Hhex]. eauto.
      * split; [discriminate|].
        intros (p & Hs & Hlen & Hhex). destruct p as [|c' p]; [discriminate|].
        simpl in *. injection Hs as <- ->. by rewrite Hc in Hhex.
Qed.

(** The five runs of [uuid_groups [8; 4; 4; 4; 12] s], one after the other:
    each but the last must be followed by a hyphen, the last by nothing. *)
Ltac uuid_run n s x rest Heq :=
  destruct (hex_run n s) as [[|x rest]|] eqn:Heq; try discriminate.

Ltac uuid_hyphen x :=
  destruct (Ascii.eqb_spec x "-") as [->|];
  [|by destruct x as [[] [] [] [] [] [] [] []]].

Lemma hex_run_length (n : nat) (s t : string) :
  hex_run n s = Some t -> String.length s = (n + String.length t)%nat.
Proof.
  intros H. apply hex_run_Some in H as (p & -> & Hlen & _).
  by rewrite length_append, Hlen.
Qed.

Lemma is_uuid_length (s : string) : is_uuid s = true -> String.length s = 36%nat.
Proof.
  unfold is_uuid. cbn [uuid_groups]. intros H.
  uuid_run 8%nat s x1 s1 H1. uuid_hyphen x1.
  uuid_run 4%nat s1 x2 s2 H2. uuid_hyphen x2.
  uuid_run 4%nat s2 x3 s3 H3. uuid_hyphen x3.
  uuid_run 4%nat s3 x4 s4 H4. uuid_hyphen x4.
  uuid_run 12%nat s4 x5 s5 H5.
  apply hex_run_length in H1, H2, H3, H4, H5. simpl in *. lia.
Qed.

(** X9. [is_uuid] accepts exactly the strings made of five runs of
    hexadecimal digits, of 8, 4, 4, 4 and 12 digits, joined by hyphens; no
    digit is fixed, so any version and variant passes. *)
Theorem is_uuid_five_hex_groups (s : string) :
  is_uuid s = true <->
    exists a b c d e,
      s = a ++ "-" ++ b ++ "-" ++ c ++ "-" ++ d ++ "-" ++ e
      /\ hex_group 8 a /\ hex_group 4 b /\ hex_group 4 c /\ hex_group 4 d
      /\ hex_group 12 e.
Proof.
  unfold is_uuid. cbn [uuid_groups]. split.
  - intros H.
    uuid_run 8%nat s x1 s1 H1. uuid_hyphen x1.
    uuid_run 4%nat s1 x2 s2 H2. uuid_hyphen x2.
    uuid_run 4%nat s2 x3 s3 H3. uuid_hyphen x3.
    uuid_run 4%nat s3 x4 s4 H4. uuid_hyphen x4.
    uuid_run 12%nat s4 x5 s5 H5.
    apply hex_run_Some in H1 as (a & -> & Ha), H2 as (b & -> & Hb),
      H3 as (c & -> & Hc), H4 as (d & -> & Hd), H5 as (e & -> & He).
    exists a, b, c, d, e. by rewrite append_empty_r.
  - intros (a & b & c & d & e & -> & Ha & Hb & Hc & Hd & He).
    change ("-" ++ b ++ "-" ++ c ++ "-" ++ d ++ "-" ++ e)
      with (String "-" (b ++ String "-" (c ++ String "-" (d ++ String "-" e)))).
    rewrite (proj2 (hex_run_Some 8 _ _) (ex_intro _ a (conj eq_refl Ha))).
    cbv beta iota.
    rewrite (proj2 (hex_run_Some 4 _ _) (ex_intro _ b (conj eq_refl Hb))).
    cbv beta iota.
    rewrite (proj2 (hex_run_Some 4 _ _) (ex_intro _ c (conj eq_refl Hc))).
    cbv beta iota.
    rewrite (proj2 (hex_run_Some 4 _ _) (ex_intro _ d (conj eq_refl Hd))).
    cbv beta iota.
    assert (hex_run 12 e = Some "") as ->; [|reflexivity].
    apply hex_run_Some. exists e. by rewrite append_empty_r.
Qed.

(** X10. A delete whose id is not 36 characters long is refused with a
    validation error before the handler runs: the service is not called and
    the store is the one before, whatever the service. *)
Theorem delete_route_refuses_malformed_id {S : Type} (svc : UserSecretsService S)
    (now : Z) (permission : Permission.t) (secretId : string) (st : S) :
  String.length secretId <> 36%nat ->
  exists issues,
    delete_route svc now permission secretId st
      = (Thrown (ValidationError issues), st).
Proof.
  intros Hlen. unfold delete_route, delete_params_schema, z_string_uuid.
  destruct (is_uuid secretId) eqn:Huuid; [|eauto].
  by apply is_uuid_length in Huuid.
Qed.

Lemma delete_route_refuses_malformed_id_witness :
  exists issues,
    delete_route specService 30 actor_O1 "1" store1
      = (Thrown (ValidationError issues), store1).
Proof.
  apply (delete_route_refuses_malformed_id specService 30 actor_O1 "1" store1).
  simpl. lia.
Defined.

(** ** POST /create: the owner and the columns of the record *)

Lemma create_body_schema_ids (b : RawBody) (p : CreateBody.t) :
  create_body_schema b = Ok p ->
  b !! "organizationId" = Some (JString (CreateBody.organizationId p))
  /\ b !! "userId" = Some (JString (CreateBody.userId p)).
Proof.
  unfold create_body_schema. intros H. zap_invert H. injection H as <-. simpl.
  repeat match goal with
         | Hf : z_string _ _ = Ok _ |- _ => apply z_string_Ok in Hf
         end.
  split; assumption.
Qed.

(** X11. The owner of a created secret is the one the body names, not the
    actor: the record's [organization_id] and [user_id] are the body's
    [organizationId] and [userId], its [id] is the generated one, and the
    create route has the same outcome for every actor context, whatever the
    service. *)
Theorem create_owner_comes_from_body {S : Type} (svc : UserSecretsService S)
    (uuid : string) (t_created t_updated : Z) (permission permission' : Permission.t)
    (body : RawBody) (parsed : CreateBody.t) (st : S) :
  create_body_schema body = Ok parsed ->
  let r := newSecret uuid t_created t_updated parsed in
  body !! "organizationId" = Some (JString (NewSecret.organization_id r))
  /\ body !! "userId" = Some (JString (NewSecret.user_id r))
  /\ NewSecret.id r = uuid
  /\ create_route svc uuid t_created t_updated permission body st
     = create_route svc uuid t_created t_updated permission' body st.
Proof.
  intros Hparsed. destruct (create_body_schema_ids _ _ Hparsed) as [Horg Huser].
  simpl. split; [exact Horg|]. split; [exact Huser|]. split; reflexivity.
Qed.

Lemma create_owner_comes_from_body_witness :
  let r := newSecret id1 10 11 parsed_card_with_username in
  body_card_with_username !! "organizationId"
    = Some (JString (NewSecret.organization_id r))
  /\ body_card_with_username !! "userId" = Some (JString (NewSecret.user_id r))
  /\ NewSecret.id r = id1
  /\ create_route specService id1 10 11 actor_O2 body_card_with_username ∅
     = create_route specService id1 10 11 actor_O1 body_card_with_username ∅.
Proof.
  apply (create_owner_comes_from_body specService id1 10 11 actor_O2 actor_O1
           body_card_with_username parsed_card_with_username ∅).
  vm_compute. reflexivity.
Defined.

Lemma or_null_not_empty (v : option string) : or_null v <> Some "".
Proof. by destruct v as [[|]|]. Qed.

(** X12. The record built for a create never holds an empty string: each
    string column is null or a non-empty string, and the expiry date, when
    it is there, is the date made of a non-empty [expiryDate]. *)
Theorem create_never_stores_empty_string
    (uuid : string) (t_created t_updated : Z) (body : CreateBody.t) :
  let r := newSecret uuid t_created t_updated body in
  Forall (fun w => w <> Some "") (string_columns r)
  /\ (forall d, NewSecret.expiry_date r = Some d ->
        exists s, s <> "" /\ CreateBody.expiryDate body = Some s /\ d = DateOf s).
Proof.
  cbv zeta. split.
  - unfold string_columns, newSecret; simpl.
    repeat (constructor; [apply or_null_not_empty|]). constructor.
  - simpl. destruct (CreateBody.expiryDate body) as [[|c s]|]; simpl; try discriminate.
    intros d [= <-]. by exists (String c s).
Qed.

(** ** PUT /update/:id against POST /create on the same fields *)

(** X13. For the same field values, the columns of a create are the fields
    of an update's [data] with the empty strings turned to null: the update
    hands an empty string on as it is, where the create stores null. The
    expiry date is made the same way by both, an empty [expiryDate] being
    dropped. *)
Theorem create_nulls_what_update_passes_on
    (uuid : string) (t_created t_updated now : Z)
    (created : CreateBody.t) (updated : UpdateBody.t) :
  string_fields created = update_string_fields updated ->
  CreateBody.expiryDate created = UpdateBody.expiryDate updated ->
  let r := newSecret uuid t_created t_updated created in
  let d := updateData now updated in
  data_string_fields d = update_string_fields updated
  /\ string_columns r = or_null <$> data_string_fields d
  /\ NewSecret.expiry_date r = UpdateData.expiry_date d
  /\ (blank (UpdateBody.expiryDate updated) <-> UpdateData.expiry_date d = None).
Proof.
  intros Hfields Hexpiry. cbv zeta.
  unfold string_fields, update_string_fields in Hfields.
  injection Hfields as Hu Hp Hn Hv Ht Hc.
  unfold data_string_fields, string_columns, newSecret, updateData; simpl.
  rewrite Hu, Hp, Hn, Hv, Ht, Hc, Hexpiry.
  repeat split; try reflexivity.
  - apply date_or_blank.
  - unfold blank. by destruct (UpdateBody.expiryDate updated) as [[|]|]; auto.
Qed.

Lemma create_nulls_what_update_passes_on_witness :
  let created :=
    CreateBody.mk WEB_LOGIN (Some "") (Some "b") None (Some "") None None None "O1" "u1" in
  let updated :=
    UpdateBody.mk None (Some "") (Some "b") None (Some "") None None None "O1" "u1" in
  let r := newSecret id1 10 11 created in
  let d := updateData 20 updated in
  data_string_fields d = update_string_fields updated
  /\ string_columns r = or_null <$> data_string_fields d
  /\ NewSecret.expiry_date r = UpdateData.expiry_date d
  /\ (blank (UpdateBody.expiryDate updated) <-> UpdateData.expiry_date d = None).
Proof.
  apply (create_nulls_what_update_passes_on id1 10 11 20
           (CreateBody.mk WEB_LOGIN (Some "") (Some "b") None (Some "") None None None "O1" "u1")
           (UpdateBody.mk None (Some "") (Some "b") None (Some "") None None None "O1" "u1"));
    reflexivity.
Defined.

(** ** The middleware [validate]: how often [next] is called *)


(** X15. An exception leaves [validate] exactly when the first call of
    [next] throws and the call of [next] with the UnauthorizedRequestError
    throws as well; an exception of a first call with another argument is
    caught and answered by that second call. *)
Theorem validate_escapes_only_from_catch {Req FieldError : Type}
    (validationResult : Req -> option (list FieldError)) (array_text : string)
    (next : option ValidateRequest.RequestError -> bool) (req : Req) :
  let run := ValidateRequest.validate validationResult array_text next req in
  snd run = ValidateRequest.Escaped <->
    next (Some ValidateRequest.unauthenticated) = false
    /\ exists first, head (fst run) = Some first /\ next first = false.
Proof.
  unfold ValidateRequest.validate, ValidateRequest.on_catch.
  destruct (validationResult req) as [errors|]; simpl.
  - destruct (next _) eqn:Hnext; simpl.
    + split; [discriminate|]. intros (_ & first & [= <-] & Hfirst). congruence.
    + destruct (next (Some ValidateRequest.unauthenticated)) eqn:Hcatch; simpl.
      * split; [discriminate|]. by intros [? _].
      * split; [|reflexivity]. intros _. split; [reflexivity|]. eauto.
  - destruct (next (Some ValidateRequest.unauthenticated)) eqn:Hcatch; simpl.
    + split; [discriminate|]. by intros [? _].
    + split; [|reflexivity]. intros _. split; [reflexivity|]. eauto.
Qed.

(** X16. What express-validator found does not reach [next]: for any two
    non-empty lists of errors [validate] makes the same calls with the same
    arguments and ends the same way. *)
Theorem validate_forgets_the_errors {Req FieldError FieldError' : Type}
    (validationResult : Req -> option (list FieldError))
    (validationResult' : Req -> option (list FieldError'))
    (array_text : string) (next : option ValidateRequest.RequestError -> bool)
    (req : Req) :
  validationResult req <> None -> validationResult req <> Some [] ->
  validationResult' req <> None -> validationResult' req <> Some [] ->
  ValidateRequest.validate validationResult array_text next req
  = ValidateRequest.validate validationResult' array_text next req.
Proof.
  unfold ValidateRequest.validate.
  destruct (validationResult req) as [[|e es]|]; try done.
  destruct (validationResult' req) as [[|e' es']|]; done.
Qed.

Lemma validate_forgets_the_errors_witness :
  ValidateRequest.validate (fun _ : unit => Some ["username is required"])
    "array" (fun _ => true) tt
  = ValidateRequest.validate (fun _ : unit => Some [404%Z; 500%Z])
      "array" (fun _ => true) tt.
Proof.
  apply (validate_forgets_the_errors
           (fun _ : unit => Some ["username is required"])
           (fun _ : unit => Some [404%Z; 500%Z]) "array" (fun _ => true) tt);
    discriminate.
Defined.

(** ** PUT /update/:id: the ids of the body *)

(** X17. The update schema requires [organizationId] and [userId], and the
    route then ignores them: with any other strings in their place the
    outcome and the store are the same, whatever the service. *)
Theorem update_ignores_body_ids {S : Type} (svc : UserSecretsService S)
    (now : Z) (permission : Permission.t) (id org user : string)
    (body : RawBody) (st : S) :
  holds_string body "organizationId" ->
  holds_string body "userId" ->
  update_route svc now permission id
    (<["organizationId" := JString org]> (<["userId" := JString user]> body)) st
  = update_route svc now permission id body st.
Proof.
  intros [org0 Horg] [user0 Huser].
  set (body' := <["organizationId" := JString org]> (<["userId" := JString user]> body)).
  assert (forall k, k <> "organizationId" -> k <> "userId" -> body' !! k = body !! k)
    as Hother.
  { intros k H1 H2. unfold body'. by rewrite !lookup_insert_ne. }
  assert (body' !! "organizationId" = Some (JString org)) as Horg'.
  { unfold body'. by rewrite lookup_insert_eq. }
  assert (body' !! "userId" = Some (JString user)) as Huser'.
  { unfold body'. rewrite lookup_insert_ne by discriminate.
    by rewrite lookup_insert_eq. }
  unfold update_route, update_body_schema.
  rewrite (Hother "credentialType"), (Hother "username"), (Hother "password"),
    (Hother "cardNumber"), (Hother "expiryDate"), (Hother "cvv"),
    (Hother "title"), (Hother "content") by discriminate.
  rewrite Horg', Huser', Horg, Huser.
  match goal with
  | |- context [?P <&> z_string "organizationId" (Some (JString org))] =>
      destruct P as [g|e] eqn:HP
  end; [|reflexivity].
  zap_invert HP. injection HP as <-. reflexivity.
Qed.

Lemma update_ignores_body_ids_witness :
  update_route specService 20 actor_O1 id1
    (<["organizationId" := JString "O9"]> (<["userId" := JString "u9"]> body_takeover))
    store1
  = update_route specService 20 actor_O1 id1 body_takeover store1.
Proof.
  apply (update_ignores_body_ids specService 20 actor_O1 id1 "O9" "u9"
           body_takeover store1).
  - exists "O2". reflexivity.
  - exists "u2". reflexivity.
Defined.
